(** * hotel_dump: a verified model of the dump downloader

    Shallow embedding of [hotel_dump.py]: the MD5 helper [md5], the snapshot
    selection and the download loop of [download_latest], and the entry point.

    External collaborators are modelled by their contracts:
    - [hashlib.md5] is the MD5 algorithm of RFC 1321, as a streaming context
      that is fed bytes ([update]) and finalised ([hexdigest]);
    - the bucket is a finite sequence of objects (key, e-tag, body) that does
      not change during a run; [bucket.objects.filter(Prefix=p)] yields the
      objects whose key starts with [p], in the order of the sequence;
      failures of the storage service are left out;
    - the local file system is a finite map from path strings to nodes
      (regular file with its bytes, or directory), with the path functions
      of [posixpath].

    Strings are sequences of bytes (keys and paths in UTF-8): the slash is
    one byte that occurs in no other character, and comparing byte by byte
    orders strings as Python orders them by code point. Assertions are
    enabled, as they are when the script is run without [-O]. Logging and
    [print] are not part of the model; the trace [log] records the listings,
    downloads, hashes, renames and directory creations of a run. *)

From Equations Require Import Equations.
From Stdlib Require Import ZArith List String Ascii Lia.
From Stdlib.Strings Require Import Byte.
From stdpp Require Import gmap strings list.
Import ListNotations.

Local Open Scope Z_scope.

(** ** MD5 (RFC 1321), the algorithm behind [hashlib.md5] *)

Module MD5.

(** 32-bit words are [Z] values kept in [0, 2^32). *)
Definition wrap32 (x : Z) : Z := x mod 2 ^ 32.
Definition add32 (x y : Z) : Z := wrap32 (x + y).
Definition not32 (x : Z) : Z := Z.lxor x 0xffffffff.
Definition rotl32 (x n : Z) : Z :=
  Z.lor (wrap32 (Z.shiftl x n)) (Z.shiftr x (32 - n)).

Definition F (x y z : Z) : Z := Z.lor (Z.land x y) (Z.land (not32 x) z).
Definition G (x y z : Z) : Z := Z.lor (Z.land x z) (Z.land y (not32 z)).
Definition H (x y z : Z) : Z := Z.lxor (Z.lxor x y) z.
Definition I (x y z : Z) : Z := Z.lxor y (Z.lor x (not32 z)).

(** sines[i] = floor(2^32 * |sin(i + 1)|). *)
Definition sines : list Z :=
  [ 0xd76aa478; 0xe8c7b756; 0x242070db; 0xc1bdceee; 0xf57c0faf; 0x4787c62a;
    0xa8304613; 0xfd469501; 0x698098d8; 0x8b44f7af; 0xffff5bb1; 0x895cd7be;
    0x6b901122; 0xfd987193; 0xa679438e; 0x49b40821; 0xf61e2562; 0xc040b340;
    0x265e5a51; 0xe9b6c7aa; 0xd62f105d; 0x02441453; 0xd8a1e681; 0xe7d3fbc8;
    0x21e1cde6; 0xc33707d6; 0xf4d50d87; 0x455a14ed; 0xa9e3e905; 0xfcefa3f8;
    0x676f02d9; 0x8d2a4c8a; 0xfffa3942; 0x8771f681; 0x6d9d6122; 0xfde5380c;
    0xa4beea44; 0x4bdecfa9; 0xf6bb4b60; 0xbebfbc70; 0x289b7ec6; 0xeaa127fa;
    0xd4ef3085; 0x04881d05; 0xd9d4d039; 0xe6db99e5; 0x1fa27cf8; 0xc4ac5665;
    0xf4292244; 0x432aff97; 0xab9423a7; 0xfc93a039; 0x655b59c3; 0x8f0ccc92;
    0xffeff47d; 0x85845dd1; 0x6fa87e4f; 0xfe2ce6e0; 0xa3014314; 0x4e0811a1;
    0xf7537e82; 0xbd3af235; 0x2ad7d2bb; 0xeb86d391 ].

(** Per-round left-rotation amounts. *)
Definition shifts : list Z :=
  [ 7; 12; 17; 22; 7; 12; 17; 22; 7; 12; 17; 22; 7; 12; 17; 22;
    5; 9; 14; 20; 5; 9; 14; 20; 5; 9; 14; 20; 5; 9; 14; 20;
    4; 11; 16; 23; 4; 11; 16; 23; 4; 11; 16; 23; 4; 11; 16; 23;
    6; 10; 15; 21; 6; 10; 15; 21; 6; 10; 15; 21; 6; 10; 15; 21 ].

Definition byte_to_Z (b : byte) : Z := Z.of_N (Byte.to_N b).

Definition byte_of_Z (z : Z) : byte :=
  match Byte.of_N (Z.to_N (z mod 256)) with
  | Some b => b
  | None => x00
  end.

(** Little-endian decoding of four bytes, and encoding of a word. *)
Definition word_of_bytes (bs : list byte) : Z :=
  fold_right (fun b acc => byte_to_Z b + 256 * acc) 0 bs.

Fixpoint bytes_of_Z (n : nat) (x : Z) : list byte :=
  match n with
  | O => []
  | S n' => byte_of_Z x :: bytes_of_Z n' (x / 256)
  end.

Fixpoint words_of_block (n : nat) (bs : list byte) : list Z :=
  match n with
  | O => []
  | S n' => word_of_bytes (firstn 4 bs) :: words_of_block n' (skipn 4 bs)
  end.

Definition state : Type := Z * Z * Z * Z.

Definition init_state : state :=
  (0x67452301, 0xefcdab89, 0x98badcfe, 0x10325476).

(** One of the 64 operations on a block [M] of sixteen words. *)
Definition round (M : list Z) (s : state) (i : nat) : state :=
  let '(a, b, c, d) := s in
  let zi := Z.of_nat i in
  let '(f, g) :=
    if zi <? 16 then (F b c d, zi)
    else if zi <? 32 then (G b c d, (5 * zi + 1) mod 16)
    else if zi <? 48 then (H b c d, (3 * zi + 5) mod 16)
    else (I b c d, (7 * zi) mod 16) in
  let x := add32 (add32 (add32 a f) (nth i sines 0)) (nth (Z.to_nat g) M 0) in
  (d, add32 b (rotl32 x (nth i shifts 0)), b, c).

Definition compress (s : state) (block : list byte) : state :=
  let M := words_of_block 16 block in
  let '(a, b, c, d) := s in
  let '(a', b', c', d') := fold_left (round M) (seq 0 64) s in
  (add32 a a', add32 b b', add32 c c', add32 d d').

(** The streaming context: chaining value, bytes of the current partial
    block, and number of bytes fed so far. *)
Record ctx : Type := mk_ctx { chain : state; buf : list byte; fed : Z }.

Definition init : ctx := {| chain := init_state; buf := []; fed := 0 |}.

Definition feed (c : ctx) (b : byte) : ctx :=
  let buf' := buf c ++ [b] in
  if (length buf' =? 64)%nat
  then {| chain := compress (chain c) buf'; buf := []; fed := fed c + 1 |}
  else {| chain := chain c; buf := buf'; fed := fed c + 1 |}.

(** [hash_md5.update(chunk)] *)
Definition update (c : ctx) (data : list byte) : ctx := fold_left feed data c.

(** Padding: a 1 bit, zeros up to 56 mod 64, then the bit length on 64
    bits, little-endian. *)
Definition padding (nbytes : Z) : list byte :=
  let zeros := (55 - nbytes) mod 64 in
  x80 :: repeat x00 (Z.to_nat zeros) ++ bytes_of_Z 8 ((8 * nbytes) mod 2 ^ 64).

Definition digest (c : ctx) : list byte :=
  let '(a, b, c', d) := chain (update c (padding (fed c))) in
  bytes_of_Z 4 a ++ bytes_of_Z 4 b ++ bytes_of_Z 4 c' ++ bytes_of_Z 4 d.

Definition hex_digit (n : N) : ascii :=
  nth (N.to_nat n) (list_ascii_of_string "0123456789abcdef") "0"%char.

Definition hex_of_byte (b : byte) : list ascii :=
  [hex_digit (Byte.to_N b / 16); hex_digit (Byte.to_N b mod 16)].

Definition hexlify (bs : list byte) : string :=
  string_of_list_ascii (flat_map hex_of_byte bs).

(** [hash_md5.hexdigest()] *)
Definition hexdigest (c : ctx) : string := hexlify (digest c).

End MD5.

Definition bytes_of_string (s : string) : list byte := list_byte_of_string s.

(** ** Strings and paths *)

Local Open Scope string_scope.
Local Open Scope list_scope.

Definition slash : ascii := "/"%char.

(** The double-quote character, written by its decimal code. *)
Definition dquote : ascii := "034"%char.

Definition no_slash (s : string) : bool :=
  forallb (fun c => negb (Ascii.eqb c slash)) (list_ascii_of_string s).

(** [s.split("/")]: never empty, the pieces contain no slash. *)
Fixpoint split_slash (s : string) : list string :=
  match s with
  | EmptyString => [EmptyString]
  | String c s' =>
      if Ascii.eqb c slash then EmptyString :: split_slash s'
      else match split_slash s' with
           | piece :: rest => String c piece :: rest
           | [] => [String c EmptyString]
           end
  end.

(** [key.split("/")[-1]] *)
Definition basename (key : string) : string :=
  List.last (split_slash key) EmptyString.

(** Splits a path at its last slash: [(Some head, tail)] when the path is
    [head ++ "/" ++ tail] with no slash in [tail], [(None, path)] when the
    path has no slash. *)
Fixpoint rsplit_slash (s : string) : option string * string :=
  match s with
  | EmptyString => (None, EmptyString)
  | String c s' =>
      match rsplit_slash s' with
      | (Some h, t) => (Some (String c h), t)
      | (None, t) =>
          if Ascii.eqb c slash then (Some EmptyString, t) else (None, String c t)
      end
  end.

Fixpoint ends_with_slash (s : string) : bool :=
  match s with
  | EmptyString => false
  | String c EmptyString => Ascii.eqb c slash
  | String _ s' => ends_with_slash s'
  end.

Definition starts_with_slash (s : string) : bool :=
  match s with
  | String c _ => Ascii.eqb c slash
  | EmptyString => false
  end.

(** [os.path.join(a, b)] of [posixpath]: an absolute [b] replaces [a]; a
    separator is inserted unless [a] is empty or already ends with one. *)
Definition path_join (a b : string) : string :=
  if starts_with_slash b then b
  else if String.eqb a "" || ends_with_slash a then a +:+ b
  else a +:+ "/" +:+ b.

(** [os.path.join(a, b, c)] *)
Definition path_join3 (a b c : string) : string := path_join (path_join a b) c.

(** The paths whose directories [os.makedirs] walks through, outermost
    first: the prefixes of the path that stop before a slash (the empty
    prefix of an absolute path left out), then the path itself. *)
Fixpoint path_prefixes_from (acc s : string) : list string :=
  match s with
  | EmptyString => [acc]
  | String c s' =>
      if Ascii.eqb c slash
      then (if String.eqb acc "" then [] else [acc])
             ++ path_prefixes_from (acc +:+ "/") s'
      else path_prefixes_from (acc +:+ String c EmptyString) s'
  end.

Definition path_prefixes (p : string) : list string := path_prefixes_from "" p.

(** [re.match("^hotels/([^/]+)$", key)], returning [group(1)]. After the
    literal prefix the group takes the longest run of characters other than
    a slash; [$] then needs the end of the key. Giving characters back
    cannot help: [$] holds only at the end of the string or before a final
    newline, and a shorter run ends before a character of the run or before a
    slash. A newline is not a slash, so it belongs to the run. *)
Fixpoint strip_prefix (p s : string) : option string :=
  match p, s with
  | EmptyString, _ => Some s
  | String a p', String b s' => if Ascii.eqb a b then strip_prefix p' s' else None
  | String _ _, EmptyString => None
  end.

Fixpoint span_no_slash (s : string) : string * string :=
  match s with
  | EmptyString => (EmptyString, EmptyString)
  | String c s' =>
      if Ascii.eqb c slash then (EmptyString, s)
      else let '(run, rest) := span_no_slash s' in (String c run, rest)
  end.

Definition done_file_match (key : string) : option string :=
  match strip_prefix "hotels/" key with
  | None => None
  | Some tail =>
      let '(run, rest) := span_no_slash tail in
      if String.eqb run "" then None
      else if String.eqb rest "" then Some run
      else None
  end.

(** ** The bucket *)

Record object_summary : Type := mk_object {
  key : string;        (* object_summary.key *)
  e_tag : string;      (* object.e_tag, quotes included *)
  body : list byte     (* what object.download_file writes *)
}.

(** [bucket.objects.filter(Prefix=p)] *)
Definition objects_with_prefix (p : string) (bucket : list object_summary)
  : list object_summary :=
  List.filter (fun o => String.prefix p (key o)) bucket.

(** ** The local file system *)

Inductive node : Type :=
| File (content : list byte)
| Dir.

Abbreviation filesystem := (gmap string node).

(** Path resolution. A path names the node stored under it; besides, a path
    whose last component is empty, [.] or [..] names a directory as soon as
    what precedes that component is one. Links and other spellings of a path
    are not modelled. *)
Definition is_dot_component (b : string) : bool :=
  String.eqb b "" || String.eqb b "." || String.eqb b "..".

Definition resolve (fs : filesystem) (p : string) : option node :=
  match fs !! p with
  | Some n => Some n
  | None =>
      match rsplit_slash p with
      | (Some d, b) =>
          if is_dot_component b
          then match fs !! d with Some Dir => Some Dir | _ => None end
          else None
      | (None, _) => None
      end
  end.

Definition path_exists (fs : filesystem) (p : string) : bool :=
  match resolve fs p with Some _ => true | None => false end.

Definition path_isdir (fs : filesystem) (p : string) : bool :=
  match resolve fs p with Some Dir => true | _ => false end.

(** The directory a new entry [p] would be created in must exist. A path
    without a slash lives in the current directory, and the root exists. *)
Definition parent_is_dir (fs : filesystem) (p : string) : bool :=
  match rsplit_slash p with
  | (Some d, _) => String.eqb d "" || path_isdir fs d
  | (None, _) => true
  end.

Fixpoint mkdirs (ps : list string) (fs : filesystem) : option filesystem :=
  match ps with
  | [] => Some fs
  | p :: ps' =>
      match resolve fs p with
      | Some Dir => mkdirs ps' fs
      | Some (File _) => None
      | None => mkdirs ps' (<[p := Dir]> fs)
      end
  end.

(** ** Effects: a state and exception monad over the world *)

(** What a run does to its surroundings, in order. *)
Inductive event : Type :=
| ListObjects (prefix : string)          (* bucket.objects.filter(Prefix=..) *)
| DownloadFile (k : string) (path : string)  (* object.download_file(path) *)
| HashFile (path : string)               (* md5(path) *)
| Rename (src dst : string)              (* os.rename(src, dst) *)
| Makedirs (path : string).              (* os.makedirs(path) *)

Record world : Type := mk_world { files : filesystem; log : list event }.

Inductive error : Type :=
| AssertionError (msg : string)
| OSError.

Inductive result (A : Type) : Type :=
| Ok (a : A) (w : world)
| Raise (e : error) (w : world).
Arguments Ok {A} a w.
Arguments Raise {A} e w.

Definition M (A : Type) : Type := world -> result A.

Definition ret {A} (a : A) : M A := fun w => Ok a w.

Definition bind {A B} (m : M A) (f : A -> M B) : M B :=
  fun w => match m w with
           | Ok a w' => f a w'
           | Raise e w' => Raise e w'
           end.

Definition raise {A} (e : error) : M A := fun w => Raise e w.

Declare Scope prog_scope.
Delimit Scope prog_scope with prog.
Notation "x <- m ;; k" := (bind m (fun x => k))
  (at level 100, m at next level, right associativity) : prog_scope.
Notation "m ;;; k" := (bind m (fun _ => k))
  (at level 100, right associativity) : prog_scope.

(** [assert cond, msg] *)
Definition assert_ (cond : bool) (msg : string) : M unit :=
  if cond then ret tt else raise (AssertionError msg).

Definition emit (e : event) : M unit :=
  fun w => Ok tt {| files := files w; log := log w ++ [e] |}.

Definition final_world {A} (r : result A) : world :=
  match r with Ok _ w => w | Raise _ w => w end.

(** *** File-system and bucket operations *)

Definition os_path_exists (p : string) : M bool :=
  fun w => Ok (path_exists (files w) p) w.

Definition os_path_isdir (p : string) : M bool :=
  fun w => Ok (path_isdir (files w) p) w.

(** [os.makedirs(p)]: creates the missing directories along [p]; fails
    when a regular file is in the way. *)
Definition os_makedirs (p : string) : M unit :=
  fun w =>
    let w1 := {| files := files w; log := log w ++ [Makedirs p] |} in
    match mkdirs (path_prefixes p) (files w) with
    | Some fs' => Ok tt {| files := fs'; log := log w1 |}
    | None => Raise OSError w1
    end.

(** [object.download_file(path)]: writes the body of the object to [path],
    replacing a regular file that is there. Transfer failures of the storage
    service are left out. *)
Definition download_file (o : object_summary) (path : string) : M unit :=
  fun w =>
    let w1 := {| files := files w; log := log w ++ [DownloadFile (key o) path] |} in
    match files w !! path with
    | Some Dir => Raise OSError w1
    | _ =>
        if parent_is_dir (files w) path
        then Ok tt {| files := <[path := File (body o)]> (files w); log := log w1 |}
        else Raise OSError w1
    end.

(** [os.rename(src, dst)] for a regular file [src]: [dst] is replaced when
    it is a regular file. *)
Definition os_rename (src dst : string) : M unit :=
  fun w =>
    let w1 := {| files := files w; log := log w ++ [Rename src dst] |} in
    match files w !! src, files w !! dst with
    | Some (File c), (None | Some (File _)) =>
        if parent_is_dir (files w) dst
        then Ok tt {| files := <[dst := File c]> (delete src (files w)); log := log w1 |}
        else Raise OSError w1
    | _, _ => Raise OSError w1
    end.

Definition list_objects (bucket : list object_summary) (p : string)
  : M (list object_summary) :=
  (emit (ListObjects p) ;;; ret (objects_with_prefix p bucket))%prog.

(** ** [md5(path)] *)

(** [f.read(n)] on the bytes not read yet: the chunk, and what is left. *)
Definition file_read (n : nat) (rest : list byte) : list byte * list byte :=
  (firstn n rest, skipn n rest).

Definition chunk_size : nat := 4096.

(** [for chunk in iter(lambda: f.read(4096), b""): hash_md5.update(chunk)] *)
#[local] Opaque chunk_size.
Equations? read_chunks (hash_md5 : MD5.ctx) (rest : list byte) : MD5.ctx
  by wf (length rest) lt :=
  read_chunks hash_md5 rest with Logic.inspect (file_read chunk_size rest) := {
    | exist _ (pair nil _) _ := hash_md5
    | exist _ (pair (cons b chunk) rest') _ :=
        read_chunks (MD5.update hash_md5 (b :: chunk)) rest' }.
Proof.
  unfold file_read in *. injection e as E1 E2. subst rest'.
  destruct rest as [|x rest]; [discriminate|].
  rewrite length_skipn.
  assert (0 < chunk_size)%nat by (apply Nat.ltb_lt; vm_compute; reflexivity).
  simpl length. lia.
Qed.
#[local] Transparent chunk_size.

(** [md5] on the content of the opened file. *)
Definition md5_of_content (data : list byte) : string :=
  MD5.hexdigest (read_chunks MD5.init data).

Definition md5 (path : string) : M string :=
  fun w =>
    match files w !! path with
    | Some (File data) =>
        Ok (md5_of_content data)
           {| files := files w; log := log w ++ [HashFile path] |}
    | _ => Raise OSError w
    end.

(** ['"{}"'.format(h)] *)
Definition quoted (h : string) : string :=
  String dquote (h +:+ String dquote EmptyString).

(** ** [download_latest] *)

(** The body of the first loop: keep the greatest matching folder name. *)
Definition select_latest (latest_date : option string) (o : object_summary)
  : option string :=
  match done_file_match (key o) with
  | Some date =>
      match latest_date with
      | None => Some date
      | Some latest => if String.ltb latest date then Some date else Some latest
      end
  | None => latest_date
  end.

(** The body of the second loop, for one listing entry. *)
Definition sync_object (target_folder : string) (o : object_summary) : M unit :=
  (let base := basename (key o) in
   if String.eqb base "done" then ret tt
   else
     let local_path := path_join target_folder base in
     present <- os_path_exists local_path ;;
     if present then ret tt
     else
       let local_tmp_path := local_path +:+ "_tmp" in
       download_file o local_tmp_path ;;;
       h <- md5 local_tmp_path ;;
       let expected_e_tag := quoted h in
       assert_ (String.eqb expected_e_tag (e_tag o))
               "Checksums don't match, download failed!" ;;;
       os_rename local_tmp_path local_path)%prog.

Fixpoint for_each {A} (f : A -> M unit) (l : list A) : M unit :=
  match l with
  | [] => ret tt
  | x :: l' => (f x ;;; for_each f l')%prog
  end.

(** The first loop as a whole: [latest_date] once the listing is exhausted. *)
Definition find_latest (objs : list object_summary) : option string :=
  fold_left select_latest objs None.

Definition target_folder_of (dest_folder latest_date : string) : string :=
  path_join3 dest_folder "hotels" latest_date.

Definition download_latest (bucket : list object_summary) (dest_folder : string)
  : M unit :=
  (objs <- list_objects bucket "hotels/" ;;
   match find_latest objs with
   | None => raise (AssertionError "No complete dump folder found!")
   | Some latest_date =>
       let target_folder := target_folder_of dest_folder latest_date in
       present <- os_path_exists target_folder ;;
       (if present then ret tt else os_makedirs target_folder) ;;;
       objs <- list_objects bucket ("hotels/" +:+ latest_date) ;;
       for_each (sync_object target_folder) objs
   end)%prog.

(** The script body under [if __name__ == "__main__"], after argument
    parsing. *)
Definition main (bucket : list object_summary) (dest_folder : string) : M unit :=
  (present <- os_path_exists dest_folder ;;
   isdir <- os_path_isdir dest_folder ;;
   assert_ (present && isdir) "Destination folder does not exist!" ;;;
   download_latest bucket dest_folder)%prog.

(** * Vocabulary of the properties *)

(** ** Messages of the assertions *)

Definition no_dump_msg : string := "No complete dump folder found!".
Definition checksum_msg : string := "Checksums don't match, download failed!".
Definition no_dest_msg : string := "Destination folder does not exist!".

(** ** Snapshot tokens *)

(** The listing keys [hotels/<token>] with exactly one path segment after
    the prefix, and the tokens they carry. *)
Definition is_snapshot_token (bucket : list object_summary) (t : string) : Prop :=
  exists o, In o bucket /\ key o = "hotels/" +:+ t /\ t <> "" /\ no_slash t = true.

Fixpoint tokens_of (objs : list object_summary) : list string :=
  match objs with
  | [] => []
  | o :: objs' =>
      match done_file_match (key o) with
      | Some t => t :: tokens_of objs'
      | None => tokens_of objs'
      end
  end.

Definition has_key (bucket : list object_summary) (k : string) : bool :=
  existsb (fun o => String.eqb (key o) k) bucket.

(** ** Hashes and e-tags *)

(** Reading hexadecimal text back: the value of a digit, [bytes.fromhex]. *)
Definition hex_val (c : ascii) : N :=
  let n := N_of_ascii c in if (n <? 58)%N then (n - 48)%N else (n - 87)%N.

Definition byte_of_hex (cs : list ascii) : byte :=
  match cs with
  | [a; b] =>
      match Byte.of_N (16 * hex_val a + hex_val b) with
      | Some x => x
      | None => x00
      end
  | _ => x00
  end.

Fixpoint unhexlify (cs : list ascii) : list byte :=
  match cs with
  | a :: b :: cs' => byte_of_hex [a; b] :: unhexlify cs'
  | _ => []
  end.

Definition bytes_of_hex (s : string) : list byte :=
  unhexlify (list_ascii_of_string s).

(** The e-tag the storage service reports for an object uploaded in one
    part: the MD5 of its bytes in hexadecimal, between double quotes. *)
Definition e_tag_of_content (remote : list byte) : string :=
  quoted (MD5.hexdigest (MD5.update MD5.init remote)).

(** The comparison of [download_latest] on a downloaded file. *)
Definition checksum_matches (local : list byte) (etag : string) : bool :=
  String.eqb (quoted (md5_of_content local)) etag.

(** An object as the storage service holds it after a single-part upload. *)
Definition stored (k : string) (content : list byte) : object_summary :=
  {| key := k; e_tag := e_tag_of_content content; body := content |}.

(** ** Paths of a run *)

(** What [os.path.join] puts in front of a relative last component. *)
Definition join_prefix (a : string) : string :=
  if String.eqb a "" || ends_with_slash a then a else a +:+ "/".

(** The second listing, and [local_path] and [local_tmp_path] of an entry. *)
Definition listing_of (bucket : list object_summary) (latest_date : string)
  : list object_summary :=
  objects_with_prefix ("hotels/" +:+ latest_date) bucket.

Definition local_path_of (dest_folder latest_date : string) (o : object_summary)
  : string :=
  path_join (target_folder_of dest_folder latest_date) (basename (key o)).

Definition tmp_path_of (dest_folder latest_date : string) (o : object_summary)
  : string :=
  local_path_of dest_folder latest_date o +:+ "_tmp".

(** What [download_latest] does before the download loop once the first
    loop has selected [latest_date]: the first listing, the creation of the
    target folder when it is missing, and the second listing, which it hands
    to the loop. *)
Definition before_loop (bucket : list object_summary)
  (dest_folder latest_date : string) : M (list object_summary) :=
  (list_objects bucket "hotels/" ;;;
   present <- os_path_exists (target_folder_of dest_folder latest_date) ;;
   (if present then ret tt
    else os_makedirs (target_folder_of dest_folder latest_date)) ;;;
   list_objects bucket ("hotels/" +:+ latest_date))%prog.

(** ** Temporary names against final names *)

(** The temporary name of [o1], an entry that is not the marker, is the
    final name of [o]. *)
Definition tmp_clash (o1 o : object_summary) : bool :=
  negb (String.eqb (basename (key o1)) "done")
  && String.eqb (basename (key o1) +:+ "_tmp") (basename (key o)).

(** No entry of the listing downloads onto the final name of [o]. *)
Definition tmp_clash_free_for (objs : list object_summary) (o : object_summary)
  : bool :=
  forallb (fun o1 => negb (tmp_clash o1 o)) objs.

(** No entry of the listing downloads onto the final name of another. *)
Definition tmp_clash_free (objs : list object_summary) : bool :=
  forallb (tmp_clash_free_for objs) objs.

(** ** Events *)

Definition setup_event (e : event) : Prop :=
  match e with
  | ListObjects _ | Makedirs _ => True
  | _ => False
  end.

(** The events one iteration can add for the entry it handles. *)
Definition step_event (tf : string) (o : object_summary) (e : event) : Prop :=
  let local_path := path_join tf (basename (key o)) in
  e = DownloadFile (key o) (local_path +:+ "_tmp")
  \/ e = HashFile (local_path +:+ "_tmp")
  \/ e = Rename (local_path +:+ "_tmp") local_path.

(** ** One iteration of the download loop *)

Section StepOutcome.
Variable target_folder : string.
Variable o : object_summary.

Let local_path : string := path_join target_folder (basename (key o)).
Let local_tmp_path : string := local_path +:+ "_tmp".

(** The ways the body of the loop can end, with the world it leaves. *)
Inductive sync_outcome (w : world) : result unit -> Prop :=
| skip_marker :
    basename (key o) = "done" ->
    sync_outcome w (Ok tt w)
| skip_present :
    basename (key o) <> "done" ->
    path_exists (files w) local_path = true ->
    sync_outcome w (Ok tt w)
| download_fails :
    basename (key o) <> "done" ->
    path_exists (files w) local_path = false ->
    sync_outcome w
      (Raise OSError
         {| files := files w;
            log := log w ++ [DownloadFile (key o) local_tmp_path] |})
| checksum_fails :
    basename (key o) <> "done" ->
    path_exists (files w) local_path = false ->
    files w !! local_tmp_path <> Some Dir ->
    checksum_matches (body o) (e_tag o) = false ->
    sync_outcome w
      (Raise (AssertionError checksum_msg)
         {| files := <[local_tmp_path := File (body o)]> (files w);
            log := log w ++ [DownloadFile (key o) local_tmp_path;
                             HashFile local_tmp_path] |})
| rename_fails :
    basename (key o) <> "done" ->
    path_exists (files w) local_path = false ->
    files w !! local_tmp_path <> Some Dir ->
    checksum_matches (body o) (e_tag o) = true ->
    sync_outcome w
      (Raise OSError
         {| files := <[local_tmp_path := File (body o)]> (files w);
            log := log w ++ [DownloadFile (key o) local_tmp_path;
                             HashFile local_tmp_path;
                             Rename local_tmp_path local_path] |})
| synced :
    basename (key o) <> "done" ->
    path_exists (files w) local_path = false ->
    files w !! local_tmp_path <> Some Dir ->
    checksum_matches (body o) (e_tag o) = true ->
    sync_outcome w
      (Ok tt
         {| files := <[local_path := File (body o)]>
                       (delete local_tmp_path
                          (<[local_tmp_path := File (body o)]> (files w)));
            log := log w ++ [DownloadFile (key o) local_tmp_path;
                             HashFile local_tmp_path;
                             Rename local_tmp_path local_path] |}).

End StepOutcome.

(** ** A whole run *)

(** What a whole run does, for the snapshot [t] it selects. With [w] the
    world before and [w'] the world it ends in, normally or not:
    - nodes and existing paths of [w] are still there, except where an entry
      that is not the marker has its temporary path;
    - the events are listings and directory creations, or belong to an
      entry that is not the marker and whose final path did not exist in
      [w] unless it is the temporary path of some entry;
    - a regular file of [w'] was in [w], or sits at a temporary path, or was
      downloaded to the temporary path of an entry, matched its e-tag and was
      renamed. *)
Section RunInvariant.
Variable bucket : list object_summary.
Variable dest_folder : string.
Variable t : string.

Definition is_tmp_path (q : string) : Prop :=
  exists o1, In o1 (listing_of bucket t) /\ basename (key o1) <> "done"
             /\ q = tmp_path_of dest_folder t o1.

Definition run_event (w : world) (e : event) : Prop :=
  setup_event e
  \/ exists o1,
       In o1 (listing_of bucket t)
       /\ basename (key o1) <> "done"
       /\ step_event (target_folder_of dest_folder t) o1 e
       /\ (~ is_tmp_path (local_path_of dest_folder t o1) ->
           path_exists (files w) (local_path_of dest_folder t o1) = false).

Definition verified_download (evs : list event) (q : string) (c : list byte)
  : Prop :=
  exists o1 before after,
    In o1 (listing_of bucket t)
    /\ q = local_path_of dest_folder t o1
    /\ c = body o1
    /\ checksum_matches c (e_tag o1) = true
    /\ evs = before
             ++ [DownloadFile (key o1) (tmp_path_of dest_folder t o1);
                 HashFile (tmp_path_of dest_folder t o1);
                 Rename (tmp_path_of dest_folder t o1)
                        (local_path_of dest_folder t o1)]
             ++ after.

Record run_inv (w w' : world) (evs : list event) : Prop := {
  inv_log : log w' = log w ++ evs;
  inv_frame : forall q n,
    files w !! q = Some n -> ~ is_tmp_path q -> files w' !! q = Some n;
  inv_exists : forall p,
    path_exists (files w) p = true -> ~ is_tmp_path p ->
    path_exists (files w') p = true;
  inv_events : Forall (run_event w) evs;
  inv_origin : forall q c,
    files w' !! q = Some (File c) ->
    files w !! q = Some (File c) \/ is_tmp_path q \/ verified_download evs q c
}.

End RunInvariant.

(** ** Shape of an e-tag and of a trace *)

(** The characters [hexdigest] writes. *)
Definition is_hex_digit (c : ascii) : bool :=
  existsb (Ascii.eqb c) (list_ascii_of_string "0123456789abcdef").

(** What the loop body logs for an entry it does not skip: the download
    alone when it fails, the download and the hash when the bytes do not
    hash to the e-tag, and the rename after them when they do. *)
Definition entry_block (tf : string) (o : object_summary) (blk : list event)
  : Prop :=
  let local_path := path_join tf (basename (key o)) in
  let local_tmp_path := local_path +:+ "_tmp" in
  basename (key o) <> "done"
  /\ (blk = [DownloadFile (key o) local_tmp_path]
      \/ (blk = [DownloadFile (key o) local_tmp_path; HashFile local_tmp_path]
          /\ checksum_matches (body o) (e_tag o) = false)
      \/ (blk = [DownloadFile (key o) local_tmp_path; HashFile local_tmp_path;
                 Rename local_tmp_path local_path]
          /\ checksum_matches (body o) (e_tag o) = true)).

(** The traces of the setup followed by the loop over the entries [objs]. *)
Inductive loop_trace (tf : string) (objs : list object_summary)
  : list event -> Prop :=
| trace_setup (evs0 : list event) :
    Forall setup_event evs0 -> loop_trace tf objs evs0
| trace_entry (evs blk : list event) (o : object_summary) :
    loop_trace tf objs evs -> In o objs -> entry_block tf o blk ->
    loop_trace tf objs (evs ++ blk).

(** * Concrete buckets and worlds *)

(** Two different 128-byte messages with the same MD5 (Wang and Yu, 2005). *)
Definition collision_a : list byte := bytes_of_hex
  ("d131dd02c5e6eec4693d9a0698aff95c2fcab58712467eab4004583eb8fb7f89" +:+
   "55ad340609f4b30283e488832571415a085125e8f7cdc99fd91dbdf280373c5b" +:+
   "d8823e3156348f5bae6dacd436c919c6dd53e2b487da03fd02396306d248cda0" +:+
   "e99f33420f577ee8ce54b67080a80d1ec69821bcb6a8839396f9652b6ff72a70").

Definition collision_b : list byte := bytes_of_hex
  ("d131dd02c5e6eec4693d9a0698aff95c2fcab50712467eab4004583eb8fb7f89" +:+
   "55ad340609f4b30283e4888325f1415a085125e8f7cdc99fd91dbd7280373c5b" +:+
   "d8823e3156348f5bae6dacd436c919c6dd53e23487da03fd02396306d248cda0" +:+
   "e99f33420f577ee8ce54b67080280d1ec69821bcb6a8839396f965ab6ff72a70").

(** A file larger than one chunk. *)
Definition big_file : list byte := repeat x61 5000.

(** An existing, empty destination folder. *)
Definition empty_dest : world := {| files := {[ "/data" := Dir ]}; log := [] |}.

(** Scenario A: the later snapshot has no [done] object. *)
Definition scenario_A : list object_summary :=
  [ stored "hotels/20230101" [];
    stored "hotels/20230101/done" [];
    stored "hotels/20230101/rooms.json" (bytes_of_string "[1]");
    stored "hotels/20230202" [];
    stored "hotels/20230202/rooms.json" (bytes_of_string "[2") ].

(** Scenario B: [rooms.json] is empty and its e-tag is the MD5 of no bytes. *)
Definition scenario_B : list object_summary :=
  [ stored "hotels/20230101" [];
    stored "hotels/20230101/done" [];
    stored "hotels/20230101/rooms.json" [] ].

(** The files a run over scenario B leaves in [empty_dest]. *)
Definition scenario_B_done : world :=
  {| files := {[ "/data" := Dir; "/data/hotels" := Dir;
                 "/data/hotels/20230101" := Dir;
                 "/data/hotels/20230101/20230101" := File [];
                 "/data/hotels/20230101/rooms.json" := File [] ]};
     log := [] |}.

(** Scenario C: [reviews.json] arrives with bytes that do not hash to its
    e-tag. *)
Definition scenario_C : list object_summary :=
  [ stored "hotels/20230101" [];
    stored "hotels/20230101/done" [];
    {| key := "hotels/20230101/reviews.json";
       e_tag := e_tag_of_content (bytes_of_string "[]");
       body := bytes_of_string "[" |};
    stored "hotels/20230101/rooms.json" [] ].

Definition scenario_C_end : world :=
  {| files := {[ "/data" := Dir; "/data/hotels" := Dir;
                 "/data/hotels/20230101" := Dir;
                 "/data/hotels/20230101/20230101" := File [];
                 "/data/hotels/20230101/reviews.json_tmp"
                   := File (bytes_of_string "[") ]};
     log := [ ListObjects "hotels/"; Makedirs "/data/hotels/20230101";
              ListObjects "hotels/20230101";
              DownloadFile "hotels/20230101" "/data/hotels/20230101/20230101_tmp";
              HashFile "/data/hotels/20230101/20230101_tmp";
              Rename "/data/hotels/20230101/20230101_tmp"
                     "/data/hotels/20230101/20230101";
              DownloadFile "hotels/20230101/reviews.json"
                           "/data/hotels/20230101/reviews.json_tmp";
              HashFile "/data/hotels/20230101/reviews.json_tmp" ] |}.

(** The entry of scenario C whose bytes do not hash to its e-tag, the world
    in which the download loop over scenario C starts from [empty_dest], and
    the world in which it comes to that entry. *)
Definition scenario_C_reviews : object_summary :=
  {| key := "hotels/20230101/reviews.json";
     e_tag := e_tag_of_content (bytes_of_string "[]");
     body := bytes_of_string "[" |}.

Definition scenario_C_listed : world :=
  {| files := {[ "/data" := Dir; "/data/hotels" := Dir;
                 "/data/hotels/20230101" := Dir ]};
     log := [ ListObjects "hotels/"; Makedirs "/data/hotels/20230101";
              ListObjects "hotels/20230101" ] |}.

Definition scenario_C_reached : world :=
  {| files := {[ "/data" := Dir; "/data/hotels" := Dir;
                 "/data/hotels/20230101" := Dir;
                 "/data/hotels/20230101/20230101" := File [] ]};
     log := [ ListObjects "hotels/"; Makedirs "/data/hotels/20230101";
              ListObjects "hotels/20230101";
              DownloadFile "hotels/20230101" "/data/hotels/20230101/20230101_tmp";
              HashFile "/data/hotels/20230101/20230101_tmp";
              Rename "/data/hotels/20230101/20230101_tmp"
                     "/data/hotels/20230101/20230101" ] |}.

(** A listing in which the temporary name of the entry [a] is the name of
    the entry [a_tmp]; a destination in which [a_tmp] is present and [a] is
    not, as an interrupted download of [a] leaves it; and the same listing
    with an e-tag for [a] that its bytes do not hash to. *)
Definition clash_bucket : list object_summary :=
  [ stored "hotels/20230101" [];
    stored "hotels/20230101/a" (bytes_of_string "aaa");
    stored "hotels/20230101/a_tmp" (bytes_of_string "ttt") ].

Definition clash_start : world :=
  {| files := {[ "/data" := Dir; "/data/hotels" := Dir;
                 "/data/hotels/20230101" := Dir;
                 "/data/hotels/20230101/a_tmp" := File (bytes_of_string "old") ]};
     log := [] |}.


(** A remote object [collision_b] of which the bytes [collision_a] arrive. *)
Definition scenario_collision : list object_summary :=
  [ stored "hotels/20230101" [];
    {| key := "hotels/20230101/rooms.json";
       e_tag := e_tag_of_content collision_b;
       body := collision_a |} ].

(** The world a run over scenario B leaves, started in [empty_dest]. *)
Definition scenario_B_end : world :=
  {| files := files scenario_B_done;
     log := [ ListObjects "hotels/"; Makedirs "/data/hotels/20230101";
              ListObjects "hotels/20230101";
              DownloadFile "hotels/20230101" "/data/hotels/20230101/20230101_tmp";
              HashFile "/data/hotels/20230101/20230101_tmp";
              Rename "/data/hotels/20230101/20230101_tmp"
                     "/data/hotels/20230101/20230101";
              DownloadFile "hotels/20230101/rooms.json"
                           "/data/hotels/20230101/rooms.json_tmp";
              HashFile "/data/hotels/20230101/rooms.json_tmp";
              Rename "/data/hotels/20230101/rooms.json_tmp"
                     "/data/hotels/20230101/rooms.json" ] |}.

(** * Properties *)

(** ** Strings *)

Lemma string_app_nil_l (s : string) : "" +:+ s = s.
Proof. reflexivity. Qed.

Lemma string_app_cons (c : ascii) (s t : string) :
  String c s +:+ t = String c (s +:+ t).
Proof. reflexivity. Qed.

Ltac app_simpl := rewrite ?string_app_cons, ?string_app_nil_l in *.

Lemma string_app_nil_r (s : string) : s +:+ "" = s.
Proof. induction s as [|c s IH]; app_simpl; [reflexivity|]. now rewrite IH. Qed.

Lemma string_app_assoc (a b c : string) : (a +:+ b) +:+ c = a +:+ (b +:+ c).
Proof. induction a as [|x a IH]; app_simpl; [reflexivity|]. now rewrite IH. Qed.

Lemma string_app_length (a b : string) :
  String.length (a +:+ b) = (String.length a + String.length b)%nat.
Proof. induction a as [|x a IH]; app_simpl; simpl; [reflexivity|]. now rewrite IH. Qed.

Lemma string_app_inv_head (a b c : string) : a +:+ b = a +:+ c -> b = c.
Proof.
  induction a as [|x a IH]; app_simpl; intros E; [assumption|].
  injection E as E. auto.
Qed.

Lemma string_app_inv_tail (a b c : string) : a +:+ c = b +:+ c -> a = b.
Proof.
  revert b. induction a as [|x a IH]; intros [|y b] E; app_simpl.
  - reflexivity.
  - apply (f_equal String.length) in E. simpl in E.
    rewrite string_app_length in E. lia.
  - apply (f_equal String.length) in E. simpl in E.
    rewrite string_app_length in E. lia.
  - injection E as -> E. f_equal. now apply IH.
Qed.

Lemma string_app_neq_self (a b : string) : b <> "" -> a +:+ b <> a.
Proof.
  intros Hb E. apply (f_equal String.length) in E.
  rewrite string_app_length in E. destruct b; [congruence|simpl in E; lia].
Qed.

Lemma strip_prefix_spec (p s t : string) : strip_prefix p s = Some t <-> s = p +:+ t.
Proof.
  revert s. induction p as [|a p IH]; intros s; simpl; app_simpl.
  - split; [now intros [= ->]|now intros ->].
  - destruct s as [|b s]; [split; discriminate|].
    destruct (Ascii.eqb_spec a b) as [->|Hne].
    + rewrite IH. split; [now intros ->|now intros [= ->]].
    + split; [discriminate|]. intros [= -> _]. now contradiction Hne.
Qed.

Lemma span_no_slash_whole (s : string) :
  no_slash s = true -> span_no_slash s = (s, "").
Proof.
  unfold no_slash. induction s as [|c s IH]; simpl; [reflexivity|].
  intros [Hc Hs]%andb_prop. apply negb_true_iff in Hc. rewrite Hc.
  now rewrite (IH Hs).
Qed.

Lemma span_no_slash_spec (s run rest : string) :
  span_no_slash s = (run, rest) ->
  s = run +:+ rest /\ no_slash run = true /\ (rest = "" \/ starts_with_slash rest = true).
Proof.
  revert run rest. induction s as [|c s IH]; simpl; intros run rest E.
  - injection E as <- <-. auto.
  - destruct (Ascii.eqb c slash) eqn:Hc.
    + injection E as <- <-. simpl. rewrite Hc. auto.
    + destruct (span_no_slash s) as [run' rest'] eqn:Es. injection E as <- <-.
      destruct (IH _ _ eq_refl) as (-> & Hrun & Hrest).
      app_simpl. repeat split; [|assumption].
      unfold no_slash in *. simpl. now rewrite Hc.
Qed.

(** What the regular expression accepts: [hotels/] followed by one
    non-empty segment without a slash, which is the group. *)
Lemma done_file_match_spec (k t : string) :
  done_file_match k = Some t <-> k = "hotels/" +:+ t /\ t <> "" /\ no_slash t = true.
Proof.
  unfold done_file_match. split.
  - destruct (strip_prefix "hotels/" k) as [tail|] eqn:Ep; [|discriminate].
    apply strip_prefix_spec in Ep. subst k.
    destruct (span_no_slash tail) as [run rest] eqn:Es.
    apply span_no_slash_spec in Es as (-> & Hrun & _).
    destruct (String.eqb_spec run "") as [|Hne]; [discriminate|].
    destruct (String.eqb_spec rest "") as [->|]; [|discriminate].
    intros [= <-]. now rewrite string_app_nil_r.
  - intros (-> & Hne & Hns).
    assert (strip_prefix "hotels/" ("hotels/" +:+ t) = Some t) as ->
      by now apply strip_prefix_spec.
    rewrite (span_no_slash_whole _ Hns).
    destruct (String.eqb_spec t "") as [|_]; [contradiction|]. reflexivity.
Qed.

(** ** The snapshot resolver *)

Lemma leb_refl (a : string) : String.leb a a = true.
Proof. apply Is_true_true. exact (reflexivity (R := String.le) a). Qed.

Lemma leb_trans (a b c : string) :
  String.leb a b = true -> String.leb b c = true -> String.leb a c = true.
Proof.
  intros Hab%Is_true_true Hbc%Is_true_true. apply Is_true_true.
  exact (transitivity (R := String.le) Hab Hbc).
Qed.

Lemma ltb_leb (a b : string) : String.ltb a b = true -> String.leb a b = true.
Proof. unfold String.ltb, String.leb. now destruct (String.compare a b). Qed.

Lemma ltb_false_leb (a b : string) : String.ltb a b = false -> String.leb b a = true.
Proof.
  unfold String.ltb, String.leb. rewrite (String.compare_antisym b a).
  now destruct (String.compare a b).
Qed.

Lemma prefix_app (p t : string) : String.prefix p (p +:+ t) = true.
Proof.
  induction p as [|a p IH]; app_simpl.
  - now destruct t.
  - simpl. destruct (ascii_dec a a); [assumption|congruence].
Qed.

Lemma tokens_of_spec (bucket : list object_summary) (t : string) :
  In t (tokens_of (objects_with_prefix "hotels/" bucket)) <-> is_snapshot_token bucket t.
Proof.
  unfold is_snapshot_token, objects_with_prefix.
  induction bucket as [|o bucket IH]; simpl.
  - split; [contradiction|]. intros (o & [] & _).
  - assert (Hhead : done_file_match (key o) = Some t ->
                    String.prefix "hotels/" (key o) = true).
    { intros (E & _)%done_file_match_spec. rewrite E. apply prefix_app. }
    destruct (String.prefix "hotels/" (key o)) eqn:Hp; simpl.
    + destruct (done_file_match (key o)) as [t'|] eqn:Hm; simpl; rewrite IH.
      * split.
        -- intros [->|(o' & Ho' & H')].
           ++ exists o. split; [now left|]. now apply done_file_match_spec.
           ++ exists o'. split; [now right|assumption].
        -- intros (o' & [<-|Ho'] & H').
           ++ left. apply done_file_match_spec in H'. congruence.
           ++ right. now exists o'.
      * split.
        -- intros (o' & Ho' & H'). exists o'. split; [now right|assumption].
        -- intros (o' & [<-|Ho'] & H').
           ++ apply done_file_match_spec in H'. congruence.
           ++ now exists o'.
    + rewrite IH. split.
      * intros (o' & Ho' & H'). exists o'. split; [now right|assumption].
      * intros (o' & [<-|Ho'] & H').
        -- apply done_file_match_spec in H'. apply Hhead in H'. discriminate.
        -- now exists o'.
Qed.

Lemma select_latest_fold (objs : list object_summary) (acc : option string) :
  match fold_left select_latest objs acc with
  | Some t =>
      (acc = Some t \/ In t (tokens_of objs))
      /\ (forall a, acc = Some a -> String.leb a t = true)
      /\ Forall (fun t' => String.leb t' t = true) (tokens_of objs)
  | None => acc = None /\ tokens_of objs = []
  end.
Proof.
  revert acc. induction objs as [|o objs IH]; intros acc; simpl.
  - destruct acc as [a|]; [|auto].
    split; [now left|]. split; [|constructor]. intros ? [= <-]. apply leb_refl.
  - specialize (IH (select_latest acc o)). unfold select_latest in *.
    destruct (fold_left _ objs _) as [t|].
    + destruct IH as (Hin & Hacc & Hall).
      destruct (done_file_match (key o)) as [date|]; [|auto].
      destruct acc as [a|].
      * destruct (String.ltb a date) eqn:Hlt.
        -- repeat split.
           ++ destruct Hin as [[= <-]|Hin]; right; [now left|now right].
           ++ intros ? [= <-]. eapply leb_trans; [apply ltb_leb, Hlt|]. now apply Hacc.
           ++ constructor; [now apply Hacc|assumption].
        -- repeat split.
           ++ destruct Hin as [Hin|Hin]; [now left|right; now right].
           ++ assumption.
           ++ constructor; [|assumption].
              eapply leb_trans; [apply ltb_false_leb, Hlt|]. now apply Hacc.
      * repeat split.
        -- destruct Hin as [[= <-]|Hin]; right; [now left|now right].
        -- discriminate.
        -- constructor; [now apply Hacc|assumption].
    + destruct IH as (Hnone & Hnil).
      destruct (done_file_match (key o)) as [date|]; [|auto].
      destruct acc as [a|]; [destruct (String.ltb a date)|]; discriminate.
Qed.

(** C1. The resolver returns the greatest token among the listing keys
    [hotels/<token>] that have exactly one path segment after the prefix,
    under the byte-wise string order; when there is no such key, the run
    fails with the assertion "No complete dump folder found!", right after
    the first listing and before anything is downloaded. *)
Theorem resolver_returns_maximum
  (bucket : list object_summary) (dest_folder : string) (w : world) :
  match find_latest (objects_with_prefix "hotels/" bucket) with
  | Some t =>
      is_snapshot_token bucket t
      /\ (forall t', is_snapshot_token bucket t' -> String.leb t' t = true)
  | None =>
      (forall t', ~ is_snapshot_token bucket t')
      /\ download_latest bucket dest_folder w
         = Raise (AssertionError no_dump_msg)
                 {| files := files w; log := log w ++ [ListObjects "hotels/"] |}
  end.
Proof.
  pose proof (select_latest_fold (objects_with_prefix "hotels/" bucket) None) as Hf.
  unfold download_latest, list_objects, bind, emit, ret, raise.
  unfold find_latest in *.
  destruct (fold_left select_latest _ None) as [t|].
  - destruct Hf as ([Hin|Hin] & _ & Hall); [discriminate|]. split.
    + now apply tokens_of_spec.
    + intros t' Ht'%tokens_of_spec. rewrite Forall_forall in Hall.
      apply Hall. now apply list_elem_of_In.
  - destruct Hf as (_ & Hnil). split; [|reflexivity].
    intros t' Ht'%tokens_of_spec. now rewrite Hnil in Ht'.
Qed.

(** ** The hash of a file *)

Example md5_empty :
  MD5.hexdigest MD5.init = "d41d8cd98f00b204e9800998ecf8427e"%string.
Proof. vm_compute. reflexivity. Qed.

Example md5_abc :
  MD5.hexdigest (MD5.update MD5.init (bytes_of_string "abc"))
  = "900150983cd24fb0d6963f7d28e17f72"%string.
Proof. vm_compute. reflexivity. Qed.

Lemma update_app (h : MD5.ctx) (a b : list byte) :
  MD5.update h (a ++ b) = MD5.update (MD5.update h a) b.
Proof. unfold MD5.update. apply fold_left_app. Qed.

(** Reading in chunks of 4096 bytes feeds the context exactly the bytes of
    the file, in order. *)
Lemma read_chunks_update (h : MD5.ctx) (data : list byte) :
  read_chunks h data = MD5.update h data.
Proof.
  funelim (read_chunks h data).
  - destruct rest; [reflexivity|discriminate].
  - rewrite H, <- e', <- update_app. now rewrite firstn_skipn.
Qed.

Lemma md5_of_content_spec (data : list byte) :
  md5_of_content data = MD5.hexdigest (MD5.update MD5.init data).
Proof. unfold md5_of_content. now rewrite read_chunks_update. Qed.

Lemma bytes_of_Z_length (n : nat) (x : Z) : length (MD5.bytes_of_Z n x) = n.
Proof. revert x. induction n as [|n IH]; intros x; simpl; [reflexivity|]. now rewrite IH. Qed.

Lemma digest_length (c : MD5.ctx) : length (MD5.digest c) = 16%nat.
Proof.
  unfold MD5.digest. destruct (MD5.chain _) as [[[a b] c'] d].
  rewrite !length_app, !bytes_of_Z_length. reflexivity.
Qed.

Lemma hexlify_length (bs : list byte) :
  String.length (MD5.hexlify bs) = (2 * length bs)%nat.
Proof.
  unfold MD5.hexlify. induction bs as [|b bs IH]; simpl in *; [reflexivity|].
  rewrite IH. lia.
Qed.

Lemma byte_of_hex_of_byte (b : byte) : byte_of_hex (MD5.hex_of_byte b) = b.
Proof. destruct b; reflexivity. Qed.

Lemma hexlify_inj (xs ys : list byte) : MD5.hexlify xs = MD5.hexlify ys -> xs = ys.
Proof.
  unfold MD5.hexlify. intros E.
  apply (f_equal list_ascii_of_string) in E.
  rewrite !list_ascii_of_string_of_list_ascii in E.
  revert ys E. induction xs as [|x xs IH]; intros [|y ys] E; simpl in E;
    try discriminate; [reflexivity|].
  injection E as E1 E2 E.
  assert (MD5.hex_of_byte x = MD5.hex_of_byte y) as Hxy
    by (unfold MD5.hex_of_byte; congruence).
  apply (f_equal byte_of_hex) in Hxy. rewrite !byte_of_hex_of_byte in Hxy.
  subst y. f_equal. now apply IH.
Qed.

Lemma quoted_inj (a b : string) : quoted a = quoted b -> a = b.
Proof. unfold quoted. intros [= E]. now apply string_app_inv_tail in E. Qed.

Example md5_collision_a :
  md5_of_content collision_a = "79054025255fb1a26e4bc422aef54eb4".
Proof. vm_compute. reflexivity. Qed.

Example md5_collision_b :
  md5_of_content collision_b = "79054025255fb1a26e4bc422aef54eb4".
Proof. vm_compute. reflexivity. Qed.

(** C4, as stated, fails: the file [collision_a] is accepted against the
    e-tag of the different remote object [collision_b]. *)
Lemma checksum_match_not_identity :
  ~ (checksum_matches collision_a (e_tag_of_content collision_b) = true
     <-> collision_a = collision_b).
Proof.
  intros [Hto _].
  assert (collision_a = collision_b) as E by (apply Hto; vm_compute; reflexivity).
  apply (f_equal (fun l => nth 19 l x00)) in E. vm_compute in E. discriminate.
Qed.

(** C4, amended. The quoted hash of the local file equals the e-tag of a
    remote object uploaded in one part exactly when the two byte sequences
    have the same MD5 digest. Identical bytes always match, and a mismatch
    shows that the bytes differ; different bytes with the same digest are
    accepted. *)
Theorem checksum_matches_iff_same_digest (local remote : list byte) :
  checksum_matches local (e_tag_of_content local) = true
  /\ (checksum_matches local (e_tag_of_content remote) = true
      <-> MD5.digest (MD5.update MD5.init local)
          = MD5.digest (MD5.update MD5.init remote))
  /\ (checksum_matches local (e_tag_of_content remote) = false -> local <> remote).
Proof.
  unfold checksum_matches, e_tag_of_content. rewrite md5_of_content_spec.
  split; [apply String.eqb_refl|]. split.
  - rewrite String.eqb_eq. unfold MD5.hexdigest. split.
    + now intros E%quoted_inj%hexlify_inj.
    + now intros ->.
  - intros Hne ->. rewrite String.eqb_refl in Hne. discriminate.
Qed.

(** At the level of a run: the bytes [collision_a] arrive for an object
    whose e-tag is that of [collision_b], the check passes and the file is
    renamed into place. *)
Example collision_accepted_by_run :
  let w' := final_world (download_latest scenario_collision "/data" empty_dest) in
  files w' !! "/data/hotels/20230101/rooms.json" = Some (File collision_a)
  /\ In (Rename "/data/hotels/20230101/rooms.json_tmp"
                "/data/hotels/20230101/rooms.json") (log w').
Proof. vm_compute. split; [reflexivity|auto 20]. Qed.

(** C8. [md5] returns on every regular file, whatever its length: it is a
    total function of the content, it hashes exactly the bytes of the file
    (the chunking does not show), and it leaves the files alone. Two calls
    on the same content, under any path and in any world, give the same
    32-character value. *)
Theorem md5_total_deterministic
  (data : list byte) (p1 p2 : string) (w1 w2 : world) :
  files w1 !! p1 = Some (File data) ->
  files w2 !! p2 = Some (File data) ->
  exists h,
    md5 p1 w1 = Ok h {| files := files w1; log := log w1 ++ [HashFile p1] |}
    /\ md5 p2 w2 = Ok h {| files := files w2; log := log w2 ++ [HashFile p2] |}
    /\ h = MD5.hexdigest (MD5.update MD5.init data)
    /\ String.length h = 32%nat.
Proof.
  intros H1 H2. exists (md5_of_content data). unfold md5. rewrite H1, H2.
  repeat split; [apply md5_of_content_spec|].
  rewrite md5_of_content_spec. unfold MD5.hexdigest.
  now rewrite hexlify_length, digest_length.
Qed.

(** A file larger than one chunk, hashed under two names. *)
Lemma md5_total_deterministic_witness :
  let w1 := {| files := {[ "a" := File big_file ]}; log := [] |} in
  let w2 := {| files := {[ "b" := File big_file ]}; log := [HashFile "a"] |} in
  files w1 !! "a" = Some (File big_file)
  /\ files w2 !! "b" = Some (File big_file)
  /\ exists h,
       md5 "a" w1 = Ok h {| files := files w1; log := log w1 ++ [HashFile "a"] |}
       /\ md5 "b" w2 = Ok h {| files := files w2; log := log w2 ++ [HashFile "b"] |}
       /\ h = MD5.hexdigest (MD5.update MD5.init big_file)
       /\ String.length h = 32%nat.
Proof.
  intros w1 w2.
  assert (H1 : files w1 !! "a" = Some (File big_file)) by reflexivity.
  assert (H2 : files w2 !! "b" = Some (File big_file)) by reflexivity.
  split; [exact H1|]. split; [exact H2|].
  exact (md5_total_deterministic big_file "a" "b" w1 w2 H1 H2).
Defined.

Example md5_zero_byte_file :
  md5 "empty" {| files := {[ "empty" := File [] ]}; log := [] |}
  = Ok "d41d8cd98f00b204e9800998ecf8427e"
       {| files := {[ "empty" := File [] ]}; log := [HashFile "empty"] |}.
Proof. reflexivity. Qed.

Example md5_big_file : md5_of_content big_file = "7aaa7dec709fa4fa82f3746abfd80bdb".
Proof. vm_compute. reflexivity. Qed.

(** ** Paths *)

Lemma split_slash_pieces (s : string) :
  split_slash s <> [] /\ Forall (fun p => no_slash p = true) (split_slash s).
Proof.
  induction s as [|c s [Hne Hall]]; simpl.
  - split; [discriminate|]. now constructor.
  - destruct (Ascii.eqb c slash) eqn:Hc.
    + split; [discriminate|]. now constructor.
    + destruct (split_slash s) as [|piece rest]; [contradiction|].
      split; [discriminate|]. inversion Hall as [|? ? Hp Hrest]; subst.
      constructor; [|assumption]. unfold no_slash in *. simpl. now rewrite Hc.
Qed.

Lemma last_Forall {A} (P : A -> Prop) (l : list A) (d : A) :
  l <> [] -> Forall P l -> P (List.last l d).
Proof.
  induction l as [|x l IH]; [contradiction|]. intros _ Hall.
  inversion Hall as [|? ? Hx Hl]; subst. destruct l as [|y l]; [assumption|].
  change (P (List.last (y :: l) d)). apply IH; [discriminate|assumption].
Qed.

Lemma basename_no_slash (k : string) : no_slash (basename k) = true.
Proof.
  unfold basename. destruct (split_slash_pieces k) as [Hne Hall].
  now apply (last_Forall (fun p => no_slash p = true)).
Qed.

Lemma no_slash_starts (b : string) : no_slash b = true -> starts_with_slash b = false.
Proof.
  destruct b as [|c b]; [reflexivity|]. unfold no_slash. simpl.
  intros [Hc _]%andb_prop. now apply negb_true_iff in Hc.
Qed.

Lemma path_join_no_slash (a b : string) :
  no_slash b = true -> path_join a b = join_prefix a +:+ b.
Proof.
  intros Hb. unfold path_join, join_prefix. rewrite (no_slash_starts _ Hb).
  destruct (String.eqb a "" || ends_with_slash a); [reflexivity|].
  now rewrite string_app_assoc.
Qed.

Lemma path_join_basename (a k : string) :
  path_join a (basename k) = join_prefix a +:+ basename k.
Proof. apply path_join_no_slash, basename_no_slash. Qed.

Lemma local_path_inj (a k1 k2 : string) :
  path_join a (basename k1) = path_join a (basename k2) -> basename k1 = basename k2.
Proof. rewrite !path_join_basename. apply string_app_inv_head. Qed.

Lemma tmp_path_is_local_path (a k1 k2 : string) :
  path_join a (basename k1) +:+ "_tmp" = path_join a (basename k2) ->
  basename k1 +:+ "_tmp" = basename k2.
Proof.
  rewrite !path_join_basename, string_app_assoc. apply string_app_inv_head.
Qed.

Lemma tmp_path_neq (p : string) : p +:+ "_tmp" <> p.
Proof. now apply string_app_neq_self. Qed.

(** ** Path resolution under changes of the file system *)

Lemma resolve_lookup (fs : filesystem) (p : string) (n : node) :
  fs !! p = Some n -> resolve fs p = Some n.
Proof. unfold resolve. now intros ->. Qed.

Lemma path_exists_false_lookup (fs : filesystem) (p : string) :
  path_exists fs p = false -> fs !! p = None.
Proof.
  unfold path_exists, resolve. destruct (fs !! p); [discriminate|reflexivity].
Qed.

Lemma path_exists_mono (fs fs' : filesystem) (p : string) :
  (forall q, fs !! q = Some Dir -> fs' !! q = Some Dir) ->
  (forall n, fs !! p = Some n -> is_Some (fs' !! p)) ->
  path_exists fs p = true -> path_exists fs' p = true.
Proof.
  intros Hdir Hp. unfold path_exists, resolve.
  destruct (fs !! p) as [n|] eqn:E.
  - destruct (Hp _ eq_refl) as [n' ->]. reflexivity.
  - destruct (fs' !! p); [reflexivity|].
    destruct (rsplit_slash p) as [[d|] b]; [|discriminate].
    destruct (is_dot_component b); [|discriminate].
    destruct (fs !! d) as [[c|]|] eqn:Ed; try discriminate.
    now rewrite (Hdir _ Ed).
Qed.

(** Writing a regular file elsewhere does not make an absent path exist. *)
Lemma path_exists_insert_file (fs : filesystem) (p q : string) (c : list byte) :
  p <> q -> path_exists fs p = false ->
  path_exists (<[q := File c]> fs) p = false.
Proof.
  intros Hpq. unfold path_exists, resolve. rewrite (lookup_insert_ne _ _ _ _ (not_eq_sym Hpq)).
  destruct (fs !! p); [discriminate|].
  destruct (rsplit_slash p) as [[d|] b]; [|reflexivity].
  destruct (is_dot_component b); [|reflexivity].
  destruct (decide (q = d)) as [->|Hqd].
  - now rewrite lookup_insert_eq.
  - now rewrite (lookup_insert_ne _ _ _ _ Hqd).
Qed.

(** [os.makedirs] only adds directories, at paths that did not exist. *)
Lemma mkdirs_lookup (ps : list string) (fs fs' : filesystem) (q : string) :
  mkdirs ps fs = Some fs' ->
  fs' !! q = fs !! q \/ (fs !! q = None /\ fs' !! q = Some Dir).
Proof.
  revert fs. induction ps as [|p ps IH]; intros fs; simpl.
  - intros [= <-]. now left.
  - destruct (resolve fs p) as [[c|]|] eqn:Er; [discriminate|apply IH|].
    intros H. destruct (IH _ H) as [E|[E1 E2]].
    + destruct (decide (p = q)) as [->|Hpq].
      * rewrite lookup_insert_eq in E. right. split; [|assumption].
        unfold resolve in Er. now destruct (fs !! q).
      * rewrite (lookup_insert_ne _ _ _ _ Hpq) in E. now left.
    + destruct (decide (p = q)) as [->|Hpq].
      * now rewrite lookup_insert_eq in E1.
      * rewrite (lookup_insert_ne _ _ _ _ Hpq) in E1. now right.
Qed.

Lemma mkdirs_keeps (ps : list string) (fs fs' : filesystem) (q : string) (n : node) :
  mkdirs ps fs = Some fs' -> fs !! q = Some n -> fs' !! q = Some n.
Proof.
  intros H E. destruct (mkdirs_lookup _ _ _ q H) as [E'|[E' _]]; congruence.
Qed.

Lemma mkdirs_files (ps : list string) (fs fs' : filesystem) (q : string) (c : list byte) :
  mkdirs ps fs = Some fs' -> fs' !! q = Some (File c) -> fs !! q = Some (File c).
Proof.
  intros H E. destruct (mkdirs_lookup _ _ _ q H) as [E'|[_ E']]; congruence.
Qed.

(** ** One iteration of the download loop *)

Section Step.
Variable target_folder : string.
Variable o : object_summary.

Let local_path : string := path_join target_folder (basename (key o)).
Let local_tmp_path : string := local_path +:+ "_tmp".

Lemma sync_object_outcome (w : world) :
  sync_outcome target_folder o w (sync_object target_folder o w).
Proof.
  unfold sync_object. fold local_path. fold local_tmp_path.
  destruct (String.eqb_spec (basename (key o)) "done") as [Hd|Hd];
    [now apply skip_marker|].
  unfold bind at 1. unfold os_path_exists.
  destruct (path_exists (files w) local_path) eqn:Hex;
    [now apply skip_present|].
  unfold bind at 1. unfold download_file.
  assert (Hdir : files w !! local_tmp_path = Some Dir \/
                 files w !! local_tmp_path <> Some Dir).
  { destruct (files w !! local_tmp_path) as [[c|]|]; auto; right; discriminate. }
  destruct Hdir as [Hdir|Hdir].
  { rewrite Hdir. now apply download_fails. }
  assert (Hdl : match files w !! local_tmp_path with
                | Some Dir => Raise OSError
                    {| files := files w;
                       log := log w ++ [DownloadFile (key o) local_tmp_path] |}
                | _ =>
                    if parent_is_dir (files w) local_tmp_path
                    then Ok tt
                      {| files := <[local_tmp_path := File (body o)]> (files w);
                         log := log w ++ [DownloadFile (key o) local_tmp_path] |}
                    else Raise OSError
                      {| files := files w;
                         log := log w ++ [DownloadFile (key o) local_tmp_path] |}
                end
                = if parent_is_dir (files w) local_tmp_path
                  then Ok tt
                    {| files := <[local_tmp_path := File (body o)]> (files w);
                       log := log w ++ [DownloadFile (key o) local_tmp_path] |}
                  else Raise OSError
                    {| files := files w;
                       log := log w ++ [DownloadFile (key o) local_tmp_path] |}).
  { destruct (files w !! local_tmp_path) as [[c|]|]; congruence. }
  cbn [files log] in Hdl |- *. rewrite Hdl. clear Hdl.
  destruct (parent_is_dir (files w) local_tmp_path);
    [|now apply download_fails].
  unfold bind at 1. unfold md5. cbn [files log]. rewrite lookup_insert_eq.
  unfold bind at 1. unfold assert_.
  fold (checksum_matches (body o) (e_tag o)).
  destruct (checksum_matches (body o) (e_tag o)) eqn:Hsum.
  - unfold ret, bind, os_rename. cbn [files log]. rewrite lookup_insert_eq.
    rewrite (lookup_insert_ne _ _ _ _ (tmp_path_neq local_path)).
    rewrite (path_exists_false_lookup _ _ Hex).
    rewrite <- !app_assoc. cbn [app].
    destruct (parent_is_dir _ local_path);
      [now apply synced|now apply rename_fails].
  - unfold raise, bind. rewrite <- !app_assoc. cbn [app].
    now apply checksum_fails.
Qed.

End Step.

Ltac step_cases tf o w H :=
  let r := fresh "r" in
  let Er := fresh "Er" in
  pose proof (sync_object_outcome tf o w) as H;
  remember (sync_object tf o w) as r eqn:Er;
  destruct H; cbn [final_world files log] in *.

Lemma step_log (tf : string) (o : object_summary) (w : world) :
  exists evs,
    log (final_world (sync_object tf o w)) = log w ++ evs
    /\ (evs = []
        \/ (basename (key o) <> "done"
            /\ path_exists (files w) (path_join tf (basename (key o))) = false
            /\ Forall (step_event tf o) evs)).
Proof.
  unfold step_event.
  step_cases tf o w H.
  - exists []. rewrite app_nil_r. auto.
  - exists []. rewrite app_nil_r. auto.
  - eexists. split; [reflexivity|right]. repeat split; auto.
  - eexists. split; [reflexivity|right]. repeat split; auto.
  - eexists. split; [reflexivity|right]. repeat split; auto 6.
  - eexists. split; [reflexivity|right]. repeat split; auto 6.
Qed.

Lemma step_frame (tf : string) (o : object_summary) (w : world) (q : string) (n : node) :
  files w !! q = Some n ->
  (basename (key o) <> "done" -> q <> path_join tf (basename (key o)) +:+ "_tmp") ->
  files (final_world (sync_object tf o w)) !! q = Some n.
Proof.
  intros Hq Hne. step_cases tf o w H; try assumption;
    specialize (Hne ltac:(assumption)).
  - now rewrite lookup_insert_ne by congruence.
  - now rewrite lookup_insert_ne by congruence.
  - assert (q <> path_join tf (basename (key o))) as Hlp.
    { intros ->. apply path_exists_false_lookup in H0. congruence. }
    rewrite lookup_insert_ne by congruence.
    rewrite lookup_delete_ne by congruence.
    now rewrite lookup_insert_ne by congruence.
Qed.

Lemma step_dirs (tf : string) (o : object_summary) (w : world) (q : string) :
  files w !! q = Some Dir ->
  files (final_world (sync_object tf o w)) !! q = Some Dir.
Proof.
  intros Hq.
  destruct (decide (q = path_join tf (basename (key o)) +:+ "_tmp")) as [->|Hne];
    [|now apply step_frame].
  step_cases tf o w H; try assumption; contradiction.
Qed.

Lemma step_exists (tf : string) (o : object_summary) (w : world) (p : string) :
  path_exists (files w) p = true ->
  (basename (key o) <> "done" -> p <> path_join tf (basename (key o)) +:+ "_tmp") ->
  path_exists (files (final_world (sync_object tf o w))) p = true.
Proof.
  intros Hex Hne. revert Hex. apply path_exists_mono.
  - intros q. apply step_dirs.
  - intros n Hn. exists n. now apply step_frame.
Qed.

(** Where a regular file found after an iteration comes from. *)
Lemma step_origin (tf : string) (o : object_summary) (w : world)
  (q : string) (c : list byte) :
  files (final_world (sync_object tf o w)) !! q = Some (File c) ->
  files w !! q = Some (File c)
  \/ (q = path_join tf (basename (key o)) +:+ "_tmp" /\ basename (key o) <> "done")
  \/ (q = path_join tf (basename (key o))
      /\ c = body o
      /\ basename (key o) <> "done"
      /\ checksum_matches (body o) (e_tag o) = true
      /\ log (final_world (sync_object tf o w))
         = log w ++ [DownloadFile (key o) (path_join tf (basename (key o)) +:+ "_tmp");
                     HashFile (path_join tf (basename (key o)) +:+ "_tmp");
                     Rename (path_join tf (basename (key o)) +:+ "_tmp")
                            (path_join tf (basename (key o)))]).
Proof.
  intros Hq. step_cases tf o w H; auto.
  - destruct (decide (q = path_join tf (basename (key o)) +:+ "_tmp")) as [->|Hne];
      [auto|]. rewrite lookup_insert_ne in Hq by congruence. auto.
  - destruct (decide (q = path_join tf (basename (key o)) +:+ "_tmp")) as [->|Hne];
      [auto|]. rewrite lookup_insert_ne in Hq by congruence. auto.
  - destruct (decide (q = path_join tf (basename (key o)))) as [->|Hlp].
    + rewrite lookup_insert_eq in Hq. injection Hq as <-. right. right. auto.
    + rewrite lookup_insert_ne in Hq by congruence.
      destruct (decide (q = path_join tf (basename (key o)) +:+ "_tmp")) as [->|Hne];
        [auto|].
      rewrite lookup_delete_ne in Hq by congruence.
      rewrite lookup_insert_ne in Hq by congruence. auto.
Qed.

(** ** The loop and the run *)

Lemma for_each_invariant {A} (Inv : world -> Prop) (f : A -> M unit) (l : list A) :
  (forall x w, In x l -> Inv w -> Inv (final_world (f x w))) ->
  forall w, Inv w -> Inv (final_world (for_each f l w)).
Proof.
  induction l as [|x l IH]; intros Hstep w Hw; simpl; [assumption|].
  unfold bind. pose proof (Hstep x w (or_introl eq_refl) Hw) as Hx.
  destruct (f x w) as [[] w1|e w1]; simpl in Hx |- *; [|assumption].
  apply IH; [|assumption]. intros y w2 Hy. apply Hstep. now right.
Qed.

(** A loop that raises does so in the body, for one of the entries, in a
    world that the earlier iterations have reached. *)
Lemma for_each_raise {A} (Inv : world -> Prop) (f : A -> M unit) (l : list A)
  (w : world) (e : error) (w' : world) :
  (forall x w, In x l -> Inv w -> Inv (final_world (f x w))) ->
  Inv w ->
  for_each f l w = Raise e w' ->
  exists x w1, In x l /\ Inv w1 /\ f x w1 = Raise e w'.
Proof.
  revert w. induction l as [|x l IH]; intros w Hstep Hw; simpl; [discriminate|].
  unfold bind. pose proof (Hstep x w (or_introl eq_refl) Hw) as Hx.
  destruct (f x w) as [[] w1|e1 w1] eqn:Ef; simpl in Hx.
  - intros Hr. destruct (IH w1) as (y & w2 & Hy & Hw2 & Hf); auto.
    + intros y w2 Hy. apply Hstep. now right.
    + exists y, w2. split; [now right|auto].
  - intros [= -> ->]. exists x, w. split; [now left|auto].
Qed.

(** The part of the run before the download loop: it lists, and creates
    directories; the loop then starts in a world [w0] that has every node of
    the initial world and no new regular file. *)
Lemma download_latest_run
  (bucket : list object_summary) (dest_folder : string) (w : world) :
  match find_latest (objects_with_prefix "hotels/" bucket) with
  | None =>
      download_latest bucket dest_folder w
      = Raise (AssertionError no_dump_msg)
              {| files := files w; log := log w ++ [ListObjects "hotels/"] |}
  | Some t =>
      exists w0 evs0,
        log w0 = log w ++ evs0
        /\ Forall setup_event evs0
        /\ (forall q n, files w !! q = Some n -> files w0 !! q = Some n)
        /\ (forall q c, files w0 !! q = Some (File c) -> files w !! q = Some (File c))
        /\ (download_latest bucket dest_folder w = Raise OSError w0
            \/ download_latest bucket dest_folder w
               = for_each (sync_object (target_folder_of dest_folder t))
                          (listing_of bucket t) w0)
  end.
Proof.
  assert (Hrun : download_latest bucket dest_folder w =
    match find_latest (objects_with_prefix "hotels/" bucket) with
    | None => Raise (AssertionError no_dump_msg)
                {| files := files w; log := log w ++ [ListObjects "hotels/"] |}
    | Some t =>
        match (if path_exists (files w) (target_folder_of dest_folder t)
               then ret tt else os_makedirs (target_folder_of dest_folder t))
                {| files := files w; log := log w ++ [ListObjects "hotels/"] |}
        with
        | Ok _ w1 =>
            for_each (sync_object (target_folder_of dest_folder t))
              (listing_of bucket t)
              {| files := files w1;
                 log := log w1 ++ [ListObjects ("hotels/" +:+ t)] |}
        | Raise e w1 => Raise e w1
        end
    end).
  { unfold download_latest, list_objects, bind, emit, ret, raise,
      os_path_exists, listing_of.
    destruct (find_latest _); reflexivity. }
  rewrite Hrun. clear Hrun.
  destruct (find_latest _) as [t|]; [|reflexivity].
  destruct (path_exists (files w) (target_folder_of dest_folder t)) eqn:Hex.
  - unfold ret. cbn [files log]. rewrite <- app_assoc. cbn [app].
    exists {| files := files w;
              log := log w ++ [ListObjects "hotels/"; ListObjects ("hotels/" +:+ t)] |},
           [ListObjects "hotels/"; ListObjects ("hotels/" +:+ t)].
    cbn [files log]. split; [reflexivity|]. split; [repeat constructor|]. auto.
  - unfold os_makedirs. cbn [files log].
    destruct (mkdirs _ (files w)) as [fs'|] eqn:Emk; cbn [files log].
    + rewrite <- !app_assoc. cbn [app].
      exists {| files := fs';
                log := log w ++ [ListObjects "hotels/";
                                 Makedirs (target_folder_of dest_folder t);
                                 ListObjects ("hotels/" +:+ t)] |},
             [ListObjects "hotels/"; Makedirs (target_folder_of dest_folder t);
              ListObjects ("hotels/" +:+ t)].
      cbn [files log]. split; [reflexivity|]. split; [repeat constructor|].
      split; [intros q n; exact (mkdirs_keeps _ _ _ q n Emk)|].
      split; [intros q c; exact (mkdirs_files _ _ _ q c Emk)|]. now right.
    + rewrite <- !app_assoc. cbn [app].
      exists {| files := files w;
                log := log w ++ [ListObjects "hotels/";
                                 Makedirs (target_folder_of dest_folder t)] |},
             [ListObjects "hotels/"; Makedirs (target_folder_of dest_folder t)].
      cbn [files log]. split; [reflexivity|]. split; [repeat constructor|]. auto.
Qed.

Section Run.
Variable bucket : list object_summary.
Variable dest_folder : string.
Variable t : string.

Let entries : list object_summary := listing_of bucket t.
Let tf : string := target_folder_of dest_folder t.

Lemma verified_download_app (evs evs' : list event) (q : string) (c : list byte) :
  verified_download bucket dest_folder t evs q c -> verified_download bucket dest_folder t (evs ++ evs') q c.
Proof.
  intros (o1 & before & after & Hin & Hq & Hc & Hsum & ->).
  exists o1, before, (after ++ evs'). repeat split; auto.
  now rewrite <- !app_assoc.
Qed.

Lemma run_inv_step (w w1 : world) (evs : list event) (o : object_summary) :
  In o entries ->
  run_inv bucket dest_folder t w w1 evs ->
  exists evs', run_inv bucket dest_folder t w (final_world (sync_object tf o w1)) (evs ++ evs').
Proof.
  intros Ho [Hlog Hframe Hex Hev Horigin].
  assert (Htmp : forall q, ~ is_tmp_path bucket dest_folder t q ->
            basename (key o) <> "done" ->
            q <> path_join tf (basename (key o)) +:+ "_tmp").
  { intros q Hq Hd ->. apply Hq. now exists o. }
  destruct (step_log tf o w1) as (evs' & Hlog' & Hevs').
  exists evs'. split.
  - now rewrite Hlog', Hlog, app_assoc.
  - intros q n Hq Hnt. apply step_frame; auto.
  - intros p Hp Hnt. apply step_exists; auto.
  - apply Forall_app. split; [assumption|].
    destruct Hevs' as [->|(Hd & Habs & Hsteps)]; [constructor|].
    eapply Forall_impl; [exact Hsteps|]. intros e He. right. exists o.
    repeat split; auto.
    intros Hno. unfold local_path_of in *. fold tf in Hno |- *.
    destruct (path_exists (files w) _) eqn:Hpre; [|reflexivity].
    rewrite (Hex _ Hpre Hno) in Habs. discriminate.
  - intros q c Hq. apply step_origin in Hq as [Hq|[(-> & Hd)|Hq]].
    + destruct (Horigin _ _ Hq) as [H|[H|H]]; auto.
      right. right. now apply verified_download_app.
    + right. left. now exists o.
    + destruct Hq as (-> & -> & Hd & Hsum & Hlog2). right. right.
      exists o, evs, []. repeat split; auto.
      rewrite Hlog' in Hlog2. apply app_inv_head in Hlog2. now subst evs'.
Qed.

Lemma run_inv_setup (w w0 : world) (evs0 : list event) :
  log w0 = log w ++ evs0 ->
  Forall setup_event evs0 ->
  (forall q n, files w !! q = Some n -> files w0 !! q = Some n) ->
  (forall q c, files w0 !! q = Some (File c) -> files w !! q = Some (File c)) ->
  run_inv bucket dest_folder t w w0 evs0.
Proof.
  intros Hlog Hev Hkeep Hfiles. split; auto.
  - intros p Hp _. revert Hp. apply path_exists_mono; [now auto|].
    intros n Hn. exists n. auto.
  - eapply Forall_impl; [exact Hev|]. intros e He. now left.
Qed.

Lemma run_inv_loop (w w0 : world) (evs0 : list event) :
  run_inv bucket dest_folder t w w0 evs0 ->
  exists evs, run_inv bucket dest_folder t w (final_world (for_each (sync_object tf) entries w0)) evs.
Proof.
  intros H0.
  apply (for_each_invariant (fun w1 => exists evs, run_inv bucket dest_folder t w w1 evs)); [|eauto].
  intros o w1 Ho (evs & Hinv).
  destruct (run_inv_step w w1 evs o Ho Hinv) as (evs' & H'). eauto.
Qed.

(** The invariant holds of every run that selects [t]. *)
Lemma download_latest_inv (w : world) :
  find_latest (objects_with_prefix "hotels/" bucket) = Some t ->
  exists evs,
    run_inv bucket dest_folder t w (final_world (download_latest bucket dest_folder w)) evs.
Proof.
  intros Ht. pose proof (download_latest_run bucket dest_folder w) as Hrun.
  rewrite Ht in Hrun.
  destruct Hrun as (w0 & evs0 & Hlog & Hev & Hkeep & Hfiles & [Hr|Hr]);
    rewrite Hr; pose proof (run_inv_setup w w0 evs0 Hlog Hev Hkeep Hfiles) as H0.
  - now exists evs0.
  - now apply run_inv_loop with evs0.
Qed.

(** A run that raises inside the loop does so in the body, at an entry,
    in a world that satisfies the invariant. *)
Lemma download_latest_raise (w w' : world) (msg : string) :
  find_latest (objects_with_prefix "hotels/" bucket) = Some t ->
  download_latest bucket dest_folder w = Raise (AssertionError msg) w' ->
  exists o w1 evs,
    In o entries /\ run_inv bucket dest_folder t w w1 evs
    /\ sync_object tf o w1 = Raise (AssertionError msg) w'.
Proof.
  intros Ht Hraise. pose proof (download_latest_run bucket dest_folder w) as Hrun.
  rewrite Ht in Hrun.
  destruct Hrun as (w0 & evs0 & Hlog & Hev & Hkeep & Hfiles & [Hr|Hr]);
    rewrite Hr in Hraise; [discriminate|].
  pose proof (run_inv_setup w w0 evs0 Hlog Hev Hkeep Hfiles) as H0.
  destruct (for_each_raise (fun w1 => exists evs, run_inv bucket dest_folder t w w1 evs)
              (sync_object tf) entries w0 (AssertionError msg) w')
    as (o & w1 & Ho & (evs & H1) & Hs);
    [|eauto|exact Hraise|eauto 6].
  intros o w1 Ho (evs & Hinv).
  destruct (run_inv_step w w1 evs o Ho Hinv) as (evs' & H'). eauto.
Qed.

End Run.

(** ** Temporary names against final names *)

Lemma tmp_clash_free_for_not_tmp
  (bucket : list object_summary) (dest_folder t : string) (o : object_summary) :
  tmp_clash_free_for (listing_of bucket t) o = true ->
  ~ is_tmp_path bucket dest_folder t (local_path_of dest_folder t o).
Proof.
  intros Hfree (o1 & Hin & Hd & E). unfold tmp_clash_free_for in Hfree.
  rewrite forallb_forall in Hfree. specialize (Hfree o1 Hin).
  unfold tmp_path_of, local_path_of in E. symmetry in E.
  apply tmp_path_is_local_path in E. unfold tmp_clash in Hfree.
  apply String.eqb_neq in Hd. rewrite Hd, E, String.eqb_refl in Hfree.
  discriminate.
Qed.


Lemma run_inv_event
  (bucket : list object_summary) (dest_folder t : string)
  (w w' : world) (evs : list event) (e : event) :
  run_inv bucket dest_folder t w w' evs -> In e evs ->
  run_event bucket dest_folder t w e.
Proof.
  intros Hinv Hin. pose proof (inv_events _ _ _ _ _ _ Hinv) as Hall.
  rewrite Forall_forall in Hall. apply Hall. now apply list_elem_of_In.
Qed.

(** ** The claims about the download loop *)

(** C7. An entry whose basename is [done] is skipped: the loop body leaves
    the world as it is, and no run downloads the object. *)
Theorem done_marker_not_downloaded
  (bucket : list object_summary) (dest_folder : string) (w : world)
  (o : object_summary) :
  basename (key o) = "done" ->
  (forall tf w1, sync_object tf o w1 = Ok tt w1)
  /\ exists evs,
       log (final_world (download_latest bucket dest_folder w)) = log w ++ evs
       /\ forall p, ~ In (DownloadFile (key o) p) evs.
Proof.
  intros Hdone. split.
  - intros tf w1. unfold sync_object. now rewrite Hdone.
  - pose proof (download_latest_run bucket dest_folder w) as Hrun.
    destruct (find_latest (objects_with_prefix "hotels/" bucket)) as [t|] eqn:Ht.
    + clear Hrun. destruct (download_latest_inv bucket dest_folder t w Ht) as (evs & Hinv).
      exists evs. split; [exact (inv_log _ _ _ _ _ _ Hinv)|].
      intros p Hin.
      destruct (run_inv_event _ _ _ _ _ _ _ Hinv Hin) as [[]|(o1 & _ & Hd & Hstep & _)].
      destruct Hstep as [E|[E|E]]; try discriminate.
      injection E as Ek _. rewrite Ek in Hdone. contradiction.
    + rewrite Hrun. exists [ListObjects "hotels/"]. split; [reflexivity|].
      intros p [E|[]]. discriminate.
Qed.

Lemma done_marker_not_downloaded_witness :
  let o := stored "hotels/20230101/done" [] in
  basename (key o) = "done"
  /\ (forall tf w1, sync_object tf o w1 = Ok tt w1)
  /\ exists evs,
       log (final_world (download_latest scenario_B "/data" empty_dest))
       = log empty_dest ++ evs
       /\ forall p, ~ In (DownloadFile (key o) p) evs.
Proof.
  intros o.
  assert (H : basename (key o) = "done") by reflexivity.
  split; [exact H|].
  exact (done_marker_not_downloaded scenario_B "/data" empty_dest o H).
Defined.

(** C6. When the destination folder does not exist or is not a directory,
    the program stops at its first assertion: the world is unchanged, so
    nothing was listed and nothing was downloaded. *)
Theorem missing_destination_fails_first
  (bucket : list object_summary) (dest_folder : string) (w : world) :
  path_exists (files w) dest_folder && path_isdir (files w) dest_folder = false ->
  main bucket dest_folder w = Raise (AssertionError no_dest_msg) w.
Proof.
  intros H. unfold main, bind, os_path_exists, os_path_isdir, assert_.
  now rewrite H.
Qed.

Lemma missing_destination_fails_first_witness :
  path_exists (files empty_dest) "/nowhere"
  && path_isdir (files empty_dest) "/nowhere" = false
  /\ main scenario_A "/nowhere" empty_dest
     = Raise (AssertionError no_dest_msg) empty_dest.
Proof.
  assert (H : path_exists (files empty_dest) "/nowhere"
              && path_isdir (files empty_dest) "/nowhere" = false) by reflexivity.
  split; [exact H|].
  exact (missing_destination_fails_first scenario_A "/nowhere" empty_dest H).
Defined.

(** With an existing directory as destination the program goes on to
    [download_latest]. *)
Lemma main_with_destination
  (bucket : list object_summary) (dest_folder : string) (w : world) :
  path_exists (files w) dest_folder && path_isdir (files w) dest_folder = true ->
  main bucket dest_folder w = download_latest bucket dest_folder w.
Proof.
  intros H. unfold main, bind, os_path_exists, os_path_isdir, assert_.
  now rewrite H.
Qed.

(** A destination that is a regular file is refused as well. *)
Example destination_is_a_file :
  main scenario_A "/data"
       {| files := {[ "/data" := File [] ]}; log := [] |}
  = Raise (AssertionError no_dest_msg)
          {| files := {[ "/data" := File [] ]}; log := [] |}.
Proof. reflexivity. Qed.

(** [download_file] succeeds exactly when its path is not a directory and
    the folder it lies in is one; it then holds the body of the object. *)
Lemma download_file_ok (o : object_summary) (p : string) (w w' : world) :
  download_file o p w = Ok tt w'
  <-> (files w !! p <> Some Dir
       /\ parent_is_dir (files w) p = true
       /\ w' = {| files := <[p := File (body o)]> (files w);
                  log := log w ++ [DownloadFile (key o) p] |}).
Proof.
  unfold download_file. cbn [files log].
  destruct (files w !! p) as [[c|]|]; destruct (parent_is_dir (files w) p);
    split; try discriminate; try (intros (H1 & H2 & H3); congruence);
    intros [= <-]; repeat split; discriminate.
Qed.

(** The loop body, at an entry it has to download and whose temporary file
    can be written: when the bytes written to it do not hash to the e-tag,
    the body raises the assertion, having written the temporary file and
    hashed it, and nothing more. *)
Lemma sync_object_mismatch (tf : string) (o : object_summary) (w : world) :
  basename (key o) <> "done" ->
  path_exists (files w) (path_join tf (basename (key o))) = false ->
  files w !! (path_join tf (basename (key o)) +:+ "_tmp") <> Some Dir ->
  parent_is_dir (files w) (path_join tf (basename (key o)) +:+ "_tmp") = true ->
  checksum_matches (body o) (e_tag o) = false ->
  sync_object tf o w
  = Raise (AssertionError checksum_msg)
      {| files := <[path_join tf (basename (key o)) +:+ "_tmp" := File (body o)]>
                    (files w);
         log := log w ++ [DownloadFile (key o)
                            (path_join tf (basename (key o)) +:+ "_tmp");
                          HashFile (path_join tf (basename (key o)) +:+ "_tmp")] |}.
Proof.
  intros Hd Habs Hdir Hpar Hsum.
  unfold sync_object.
  destruct (String.eqb_spec (basename (key o)) "done") as [|_]; [contradiction|].
  unfold bind at 1. unfold os_path_exists. rewrite Habs.
  unfold bind at 1.
  rewrite (proj2 (download_file_ok o _ w _) (conj Hdir (conj Hpar eq_refl))).
  unfold bind at 1. unfold md5. cbn [files log]. rewrite lookup_insert_eq.
  unfold bind at 1. unfold assert_.
  fold (checksum_matches (body o) (e_tag o)). rewrite Hsum.
  unfold raise. rewrite <- app_assoc. reflexivity.
Qed.

(** An exception in the body ends the loop: the entries that follow are not
    looked at. *)
Lemma for_each_stops {A} (f : A -> M unit) (l1 l2 : list A) (x : A)
  (w0 w1 w2 : world) (e : error) :
  for_each f l1 w0 = Ok tt w1 ->
  f x w1 = Raise e w2 ->
  for_each f (l1 ++ x :: l2) w0 = Raise e w2.
Proof.
  revert w0. induction l1 as [|y l1 IH]; intros w0; simpl; unfold bind.
  - intros [= ->] ->. reflexivity.
  - destruct (f y w0) as [[] w|e' w]; [apply IH|discriminate].
Qed.

(** Once the first loop has selected [t], the run is [before_loop] followed
    by the download loop over the listing it returns. *)
Lemma download_latest_before_loop
  (bucket : list object_summary) (dest_folder t : string) (w : world) :
  find_latest (objects_with_prefix "hotels/" bucket) = Some t ->
  download_latest bucket dest_folder w
  = bind (before_loop bucket dest_folder t)
         (for_each (sync_object (target_folder_of dest_folder t))) w.
Proof.
  intros Ht.
  unfold download_latest, before_loop, list_objects, bind, emit, ret,
    os_path_exists.
  rewrite Ht. cbn [files log].
  destruct (path_exists (files w) (target_folder_of dest_folder t));
    [reflexivity|].
  destruct (os_makedirs (target_folder_of dest_folder t) _) as [[] w1|e w1];
    reflexivity.
Qed.

Lemma checksum_abort_state
  (bucket : list object_summary) (dest_folder : string) (w w' : world) :
  download_latest bucket dest_folder w = Raise (AssertionError checksum_msg) w' ->
  exists t o evs,
    find_latest (objects_with_prefix "hotels/" bucket) = Some t
    /\ In o (listing_of bucket t)
    /\ checksum_matches (body o) (e_tag o) = false
    /\ files w' !! tmp_path_of dest_folder t o = Some (File (body o))
    /\ files w' !! local_path_of dest_folder t o = None
    /\ path_exists (files w') (local_path_of dest_folder t o) = false
    /\ log w' = log w ++ evs ++ [DownloadFile (key o) (tmp_path_of dest_folder t o);
                                 HashFile (tmp_path_of dest_folder t o)].
Proof.
  intros Hraise.
  destruct (find_latest (objects_with_prefix "hotels/" bucket)) as [t|] eqn:Ht.
  - destruct (download_latest_raise bucket dest_folder t w w' _ Ht Hraise)
      as (o & w1 & evs & Ho & Hinv & Hstep).
    exists t, o, evs. split; [reflexivity|]. split; [assumption|].
    pose proof (sync_object_outcome (target_folder_of dest_folder t) o w1) as Hout.
    rewrite Hstep in Hout. unfold tmp_path_of, local_path_of.
    inversion Hout as [| | |Hd Habs Hdir Hsum Hw'| |]; subst; cbn [files log].
    split; [assumption|]. split; [apply lookup_insert_eq|].
    split; [|split].
    + rewrite lookup_insert_ne by apply tmp_path_neq.
      now apply path_exists_false_lookup.
    + apply path_exists_insert_file; [|assumption].
      apply not_eq_sym, tmp_path_neq.
    + rewrite (inv_log _ _ _ _ _ _ Hinv). now rewrite <- app_assoc.
  - pose proof (download_latest_run bucket dest_folder w) as Hrun.
    rewrite Ht, Hraise in Hrun. discriminate.
Qed.

(** C5. When the download loop comes to an entry it has to download (not
    the marker, nothing at its final name), the download can be written (the
    temporary path is not a directory and lies in one) and the bytes written
    to the temporary file do not hash to the e-tag, then the loop body raises
    the assertion "Checksums don't match, download failed!" and nothing
    else: the loop ends there whatever entries follow, the world it leaves
    is the one before the entry with the temporary file added and the
    download and the hash appended to the log, so the temporary file is on
    disk with the downloaded bytes, nothing is at the final name, and no
    rename and no removal has taken place. The same holds of the whole run:
    when the part of [download_latest] before the loop has returned the
    listing and the loop has passed the entries before such an entry, the
    run ends in that assertion and that world. Conversely, a run that ends
    in that assertion stopped at such an entry, right after hashing its
    temporary file: the temporary file is there, the final name is not, and
    neither a rename nor a removal follows in the log. *)
Theorem checksum_mismatch_aborts
  (bucket : list object_summary) (dest_folder : string) (w : world) :
  (forall tf l1 o l2 w0 w1,
      for_each (sync_object tf) l1 w0 = Ok tt w1 ->
      basename (key o) <> "done" ->
      path_exists (files w1) (path_join tf (basename (key o))) = false ->
      files w1 !! (path_join tf (basename (key o)) +:+ "_tmp") <> Some Dir ->
      parent_is_dir (files w1) (path_join tf (basename (key o)) +:+ "_tmp") = true ->
      checksum_matches (body o) (e_tag o) = false ->
      exists w2,
        w2 = {| files := <[path_join tf (basename (key o)) +:+ "_tmp"
                           := File (body o)]> (files w1);
                log := log w1
                       ++ [DownloadFile (key o)
                             (path_join tf (basename (key o)) +:+ "_tmp");
                           HashFile (path_join tf (basename (key o)) +:+ "_tmp")] |}
        /\ sync_object tf o w1 = Raise (AssertionError checksum_msg) w2
        /\ for_each (sync_object tf) (l1 ++ o :: l2) w0
           = Raise (AssertionError checksum_msg) w2
        /\ files w2 !! (path_join tf (basename (key o)) +:+ "_tmp")
           = Some (File (body o))
        /\ files w2 !! path_join tf (basename (key o)) = None
        /\ path_exists (files w2) (path_join tf (basename (key o))) = false)
  /\ (forall t l1 o l2 w0 w1,
        find_latest (objects_with_prefix "hotels/" bucket) = Some t ->
        before_loop bucket dest_folder t w = Ok (l1 ++ o :: l2) w0 ->
        for_each (sync_object (target_folder_of dest_folder t)) l1 w0 = Ok tt w1 ->
        basename (key o) <> "done" ->
        path_exists (files w1) (local_path_of dest_folder t o) = false ->
        files w1 !! tmp_path_of dest_folder t o <> Some Dir ->
        parent_is_dir (files w1) (tmp_path_of dest_folder t o) = true ->
        checksum_matches (body o) (e_tag o) = false ->
        download_latest bucket dest_folder w
        = Raise (AssertionError checksum_msg)
            {| files := <[tmp_path_of dest_folder t o := File (body o)]> (files w1);
               log := log w1
                      ++ [DownloadFile (key o) (tmp_path_of dest_folder t o);
                          HashFile (tmp_path_of dest_folder t o)] |})
  /\ (forall w',
        download_latest bucket dest_folder w
        = Raise (AssertionError checksum_msg) w' ->
        exists t o evs,
          find_latest (objects_with_prefix "hotels/" bucket) = Some t
          /\ In o (listing_of bucket t)
          /\ checksum_matches (body o) (e_tag o) = false
          /\ files w' !! tmp_path_of dest_folder t o = Some (File (body o))
          /\ files w' !! local_path_of dest_folder t o = None
          /\ path_exists (files w') (local_path_of dest_folder t o) = false
          /\ log w' = log w ++ evs
                      ++ [DownloadFile (key o) (tmp_path_of dest_folder t o);
                          HashFile (tmp_path_of dest_folder t o)]).
Proof.
  split; [|split; [|intros w'; apply checksum_abort_state]].
  - intros tf l1 o l2 w0 w1 Hloop Hd Habs Hdir Hpar Hsum.
    pose proof (sync_object_mismatch tf o w1 Hd Habs Hdir Hpar Hsum) as Hstep.
    eexists. split; [reflexivity|]. split; [exact Hstep|].
    split; [exact (for_each_stops _ l1 l2 o _ _ _ _ Hloop Hstep)|].
    cbn [files log]. split; [apply lookup_insert_eq|]. split.
    + rewrite lookup_insert_ne by apply tmp_path_neq.
      now apply path_exists_false_lookup.
    + apply path_exists_insert_file; [|assumption]. apply not_eq_sym, tmp_path_neq.
  - intros t l1 o l2 w0 w1 Ht Hsetup Hloop Hd Habs Hdir Hpar Hsum.
    rewrite (download_latest_before_loop bucket dest_folder t w Ht).
    unfold bind at 1. rewrite Hsetup.
    apply (for_each_stops _ l1 l2 o w0 w1 _ _ Hloop).
    exact (sync_object_mismatch (target_folder_of dest_folder t) o w1
             Hd Habs Hdir Hpar Hsum).
Qed.

Lemma scenario_C_run :
  download_latest scenario_C "/data" empty_dest
  = Raise (AssertionError checksum_msg) scenario_C_end.
Proof. vm_compute. reflexivity. Qed.

Lemma checksum_mismatch_aborts_witness :
  (find_latest (objects_with_prefix "hotels/" scenario_C) = Some "20230101"
   /\ before_loop scenario_C "/data" "20230101" empty_dest
      = Ok ([stored "hotels/20230101" []; stored "hotels/20230101/done" []]
            ++ scenario_C_reviews :: [stored "hotels/20230101/rooms.json" []])
           scenario_C_listed
   /\ for_each (sync_object (target_folder_of "/data" "20230101"))
               [stored "hotels/20230101" []; stored "hotels/20230101/done" []]
               scenario_C_listed
      = Ok tt scenario_C_reached
   /\ basename (key scenario_C_reviews) <> "done"
   /\ path_exists (files scenario_C_reached)
                  (local_path_of "/data" "20230101" scenario_C_reviews) = false
   /\ files scenario_C_reached !! tmp_path_of "/data" "20230101" scenario_C_reviews
      <> Some Dir
   /\ parent_is_dir (files scenario_C_reached)
                    (tmp_path_of "/data" "20230101" scenario_C_reviews) = true
   /\ checksum_matches (body scenario_C_reviews) (e_tag scenario_C_reviews) = false)
  /\ sync_object (target_folder_of "/data" "20230101") scenario_C_reviews
                 scenario_C_reached
     = Raise (AssertionError checksum_msg) scenario_C_end
  /\ download_latest scenario_C "/data" empty_dest
     = Raise (AssertionError checksum_msg) scenario_C_end
  /\ exists t o evs,
       find_latest (objects_with_prefix "hotels/" scenario_C) = Some t
       /\ In o (listing_of scenario_C t)
       /\ checksum_matches (body o) (e_tag o) = false
       /\ files scenario_C_end !! tmp_path_of "/data" t o = Some (File (body o))
       /\ files scenario_C_end !! local_path_of "/data" t o = None
       /\ path_exists (files scenario_C_end) (local_path_of "/data" t o) = false
       /\ log scenario_C_end
          = log empty_dest ++ evs
            ++ [DownloadFile (key o) (tmp_path_of "/data" t o);
                HashFile (tmp_path_of "/data" t o)].
Proof.
  assert (Ht : find_latest (objects_with_prefix "hotels/" scenario_C)
               = Some "20230101") by reflexivity.
  assert (Hsetup : before_loop scenario_C "/data" "20230101" empty_dest
      = Ok ([stored "hotels/20230101" []; stored "hotels/20230101/done" []]
            ++ scenario_C_reviews :: [stored "hotels/20230101/rooms.json" []])
           scenario_C_listed) by (vm_compute; reflexivity).
  assert (Hloop : for_each (sync_object (target_folder_of "/data" "20230101"))
               [stored "hotels/20230101" []; stored "hotels/20230101/done" []]
               scenario_C_listed
      = Ok tt scenario_C_reached) by (vm_compute; reflexivity).
  assert (Hd : basename (key scenario_C_reviews) <> "done") by discriminate.
  assert (Habs : path_exists (files scenario_C_reached)
                  (local_path_of "/data" "20230101" scenario_C_reviews) = false)
    by (vm_compute; reflexivity).
  assert (Hdir : files scenario_C_reached
                   !! tmp_path_of "/data" "20230101" scenario_C_reviews
                 <> Some Dir) by (vm_compute; discriminate).
  assert (Hpar : parent_is_dir (files scenario_C_reached)
                    (tmp_path_of "/data" "20230101" scenario_C_reviews) = true)
    by (vm_compute; reflexivity).
  assert (Hsum : checksum_matches (body scenario_C_reviews)
                                  (e_tag scenario_C_reviews) = false)
    by (vm_compute; reflexivity).
  destruct (checksum_mismatch_aborts scenario_C "/data" empty_dest)
    as (Hbody & Hrun & Hconv).
  split; [repeat split; assumption|].
  assert (Hend : {| files := <[tmp_path_of "/data" "20230101" scenario_C_reviews
                              := File (body scenario_C_reviews)]>
                               (files scenario_C_reached);
                    log := log scenario_C_reached
                           ++ [DownloadFile (key scenario_C_reviews)
                                 (tmp_path_of "/data" "20230101" scenario_C_reviews);
                               HashFile
                                 (tmp_path_of "/data" "20230101" scenario_C_reviews)] |}
                 = scenario_C_end) by (vm_compute; reflexivity).
  pose proof (Hrun "20230101" _ scenario_C_reviews _ _ _
                Ht Hsetup Hloop Hd Habs Hdir Hpar Hsum) as Hraise.
  rewrite Hend in Hraise.
  destruct (Hbody (target_folder_of "/data" "20230101") _ scenario_C_reviews
              [stored "hotels/20230101/rooms.json" []] _ _
              Hloop Hd Habs Hdir Hpar Hsum) as (w2 & Hw2 & Hstep & _).
  fold (local_path_of "/data" "20230101" scenario_C_reviews) in Hw2.
  fold (tmp_path_of "/data" "20230101" scenario_C_reviews) in Hw2.
  rewrite Hend in Hw2. subst w2.
  split; [exact Hstep|]. split; [exact Hraise|].
  exact (Hconv scenario_C_end Hraise).
Defined.

(** C3, as stated, fails. The file [a_tmp] is at its final path before the
    run (it is what an interrupted download of [a] leaves behind), and the
    run downloads and hashes the entry [a_tmp] all the same: the download of
    [a] takes the path over and renames it away. *)
Lemma present_entry_downloaded_again :
  let o := stored "hotels/20230101/a_tmp" (bytes_of_string "ttt") in
  let w' := final_world (download_latest clash_bucket "/data" clash_start) in
  In o (listing_of clash_bucket "20230101")
  /\ local_path_of "/data" "20230101" o = "/data/hotels/20230101/a_tmp"
  /\ path_exists (files clash_start) (local_path_of "/data" "20230101" o) = true
  /\ In (DownloadFile (key o) (tmp_path_of "/data" "20230101" o)) (log w')
  /\ In (HashFile (tmp_path_of "/data" "20230101" o)) (log w').
Proof.
  vm_compute. repeat split; auto 20.
Qed.

(** C3, amended. An entry whose final path exists before the run, and
    whose basename is not the temporary name ([<basename>_tmp]) of another
    entry of the listing that is not the marker, is neither downloaded nor
    hashed nor renamed by the run, and its final path still exists
    afterwards. *)
Theorem present_entry_not_downloaded
  (bucket : list object_summary) (dest_folder : string) (w : world)
  (t : string) (o : object_summary) :
  find_latest (objects_with_prefix "hotels/" bucket) = Some t ->
  path_exists (files w) (local_path_of dest_folder t o) = true ->
  tmp_clash_free_for (listing_of bucket t) o = true ->
  exists evs,
    log (final_world (download_latest bucket dest_folder w)) = log w ++ evs
    /\ (forall p, ~ In (DownloadFile (key o) p) evs)
    /\ ~ In (HashFile (tmp_path_of dest_folder t o)) evs
    /\ (forall src, ~ In (Rename src (local_path_of dest_folder t o)) evs)
    /\ path_exists (files (final_world (download_latest bucket dest_folder w)))
                   (local_path_of dest_folder t o) = true.
Proof.
  intros Ht Hpresent Hfree.
  pose proof (tmp_clash_free_for_not_tmp bucket dest_folder t o Hfree) as Hnt.
  destruct (download_latest_inv bucket dest_folder t w Ht) as (evs & Hinv).
  assert (Hother : forall e, In e evs ->
            setup_event e
            \/ exists o1, basename (key o1) <> basename (key o)
                          /\ step_event (target_folder_of dest_folder t) o1 e).
  { intros e He.
    destruct (run_inv_event _ _ _ _ _ _ _ Hinv He) as [Hs|(o1 & _ & _ & Hstep & Habs)];
      [now left|right].
    exists o1. split; [|assumption]. intros Eb.
    unfold local_path_of in *. rewrite Eb in Habs.
    rewrite (Habs Hnt) in Hpresent. discriminate. }
  exists evs. split; [exact (inv_log _ _ _ _ _ _ Hinv)|].
  unfold tmp_path_of, local_path_of in *.
  split; [|split; [|split]].
  - intros p Hin. destruct (Hother _ Hin) as [[]|(o1 & Hne & [E|[E|E]])];
      try discriminate. injection E as Ek _. now rewrite Ek in Hne.
  - intros Hin. destruct (Hother _ Hin) as [[]|(o1 & Hne & [E|[E|E]])];
      try discriminate. injection E as E.
    apply string_app_inv_tail, local_path_inj in E. congruence.
  - intros src Hin. destruct (Hother _ Hin) as [[]|(o1 & Hne & [E|[E|E]])];
      try discriminate. injection E as _ E. apply local_path_inj in E. congruence.
  - exact (inv_exists _ _ _ _ _ _ Hinv _ Hpresent Hnt).
Qed.

Lemma present_entry_not_downloaded_witness :
  let o := stored "hotels/20230101/rooms.json" [] in
  let w' := final_world (download_latest scenario_B "/data" scenario_B_done) in
  find_latest (objects_with_prefix "hotels/" scenario_B) = Some "20230101"
  /\ path_exists (files scenario_B_done) (local_path_of "/data" "20230101" o) = true
  /\ tmp_clash_free_for (listing_of scenario_B "20230101") o = true
  /\ exists evs,
       log w' = log scenario_B_done ++ evs
       /\ (forall p, ~ In (DownloadFile (key o) p) evs)
       /\ ~ In (HashFile (tmp_path_of "/data" "20230101" o)) evs
       /\ (forall src, ~ In (Rename src (local_path_of "/data" "20230101" o)) evs)
       /\ path_exists (files w') (local_path_of "/data" "20230101" o) = true.
Proof.
  intros o w'.
  assert (H1 : find_latest (objects_with_prefix "hotels/" scenario_B)
               = Some "20230101") by reflexivity.
  assert (H2 : path_exists (files scenario_B_done)
                 (local_path_of "/data" "20230101" o) = true) by reflexivity.
  assert (H3 : tmp_clash_free_for (listing_of scenario_B "20230101") o = true)
    by reflexivity.
  split; [exact H1|]. split; [exact H2|]. split; [exact H3|].
  exact (present_entry_not_downloaded scenario_B "/data" scenario_B_done
           "20230101" o H1 H2 H3).
Defined.

(** A run over a destination in which the target folder and every entry
    to download are present lists twice and does nothing else. *)
Lemma for_each_all_skipped (tf : string) (l : list object_summary) (w : world) :
  (forall o, In o l -> basename (key o) <> "done" ->
             path_exists (files w) (path_join tf (basename (key o))) = true) ->
  for_each (sync_object tf) l w = Ok tt w.
Proof.
  induction l as [|o l IH]; intros Hall; simpl; [reflexivity|].
  unfold bind. assert (sync_object tf o w = Ok tt w) as ->.
  { unfold sync_object, bind, os_path_exists, ret.
    destruct (String.eqb_spec (basename (key o)) "done") as [|Hd]; [reflexivity|].
    now rewrite (Hall o (or_introl eq_refl) Hd). }
  apply IH. intros o' Ho'. apply Hall. now right.
Qed.

Lemma complete_rerun_is_noop
  (bucket : list object_summary) (dest_folder : string) (w : world) (t : string) :
  find_latest (objects_with_prefix "hotels/" bucket) = Some t ->
  path_exists (files w) (target_folder_of dest_folder t) = true ->
  (forall o, In o (listing_of bucket t) -> basename (key o) <> "done" ->
             path_exists (files w) (local_path_of dest_folder t o) = true) ->
  download_latest bucket dest_folder w
  = Ok tt {| files := files w;
             log := log w ++ [ListObjects "hotels/"; ListObjects ("hotels/" +:+ t)] |}.
Proof.
  intros Ht Htf Hall.
  unfold download_latest, list_objects, bind, emit, ret, os_path_exists.
  cbn [files log]. rewrite Ht. cbn [files log]. rewrite Htf. cbn [files log].
  rewrite <- app_assoc. cbn [app].
  now apply for_each_all_skipped.
Qed.

(** Scenario B, and the run that follows it: the first run downloads,
    checks and renames; the second one lists and does nothing else. *)
Example scenario_B_first_run :
  download_latest scenario_B "/data" empty_dest
  = Ok tt
      {| files := files scenario_B_done;
         log := [ ListObjects "hotels/"; Makedirs "/data/hotels/20230101";
                  ListObjects "hotels/20230101";
                  DownloadFile "hotels/20230101" "/data/hotels/20230101/20230101_tmp";
                  HashFile "/data/hotels/20230101/20230101_tmp";
                  Rename "/data/hotels/20230101/20230101_tmp"
                         "/data/hotels/20230101/20230101";
                  DownloadFile "hotels/20230101/rooms.json"
                               "/data/hotels/20230101/rooms.json_tmp";
                  HashFile "/data/hotels/20230101/rooms.json_tmp";
                  Rename "/data/hotels/20230101/rooms.json_tmp"
                         "/data/hotels/20230101/rooms.json" ] |}.
Proof. vm_compute. reflexivity. Qed.

Example scenario_B_second_run :
  download_latest scenario_B "/data" scenario_B_done
  = Ok tt
      {| files := files scenario_B_done;
         log := [ ListObjects "hotels/"; ListObjects "hotels/20230101" ] |}.
Proof. vm_compute. reflexivity. Qed.








(** C2. The resolver does not look for the marker. In scenario A the
    snapshot [20230202] has no object [hotels/20230202/done], [20230101] has
    its marker, and the run selects [20230202] and downloads from it. *)
Theorem resolver_selects_unmarked_snapshot :
  has_key scenario_A "hotels/20230101/done" = true
  /\ has_key scenario_A "hotels/20230202/done" = false
  /\ find_latest (objects_with_prefix "hotels/" scenario_A) = Some "20230202"
  /\ In (DownloadFile "hotels/20230202/rooms.json"
                      "/data/hotels/20230202/rooms.json_tmp")
        (log (final_world (download_latest scenario_A "/data" empty_dest))).
Proof.
  vm_compute. repeat split; auto 20.
Qed.

(** * Further properties of the code *)

(** ** Strings and paths, continued *)

Lemma no_slash_app (a b : string) :
  no_slash (a +:+ b) = no_slash a && no_slash b.
Proof.
  unfold no_slash. induction a as [|c a IH]; app_simpl; simpl; [reflexivity|].
  now rewrite IH, andb_assoc.
Qed.

Lemma rsplit_no_slash (b : string) :
  no_slash b = true -> rsplit_slash b = (None, b).
Proof.
  unfold no_slash. induction b as [|c b IH]; simpl; [reflexivity|].
  intros [Hc Hb]%andb_prop. apply negb_true_iff in Hc.
  now rewrite (IH Hb), Hc.
Qed.

Lemma rsplit_app (a b : string) :
  no_slash b = true -> rsplit_slash (a +:+ "/" +:+ b) = (Some a, b).
Proof.
  intros Hb. induction a as [|c a IH]; app_simpl; simpl.
  - now rewrite (rsplit_no_slash _ Hb).
  - now rewrite IH.
Qed.

(** [split] and the split at the last slash agree on the last piece. *)
Lemma split_slash_rsplit (s : string) :
  match rsplit_slash s with
  | (None, t) => split_slash s = [t]
  | (Some _, t) => exists x pre, split_slash s = x :: pre ++ [t]
  end.
Proof.
  induction s as [|c s IH]; simpl; [reflexivity|].
  destruct (rsplit_slash s) as [[h|] t]; destruct (Ascii.eqb c slash).
  - destruct IH as (x & pre & ->). now exists "", (x :: pre).
  - destruct IH as (x & pre & ->). now exists (String c x), pre.
  - rewrite IH. now exists "", [].
  - now rewrite IH.
Qed.

Lemma basename_rsplit (s : string) : basename s = snd (rsplit_slash s).
Proof.
  unfold basename. pose proof (split_slash_rsplit s) as H.
  destruct (rsplit_slash s) as [[h|] t]; simpl.
  - destruct H as (x & pre & ->).
    change (x :: pre ++ [t]) with ((x :: pre) ++ [t]). apply List.last_last.
  - now rewrite H.
Qed.

Lemma basename_app (a t : string) :
  no_slash t = true -> basename (a +:+ "/" +:+ t) = t.
Proof. intros Ht. now rewrite basename_rsplit, (rsplit_app _ _ Ht). Qed.

Lemma ends_with_slash_app (a t : string) :
  t <> "" -> ends_with_slash (a +:+ t) = ends_with_slash t.
Proof.
  intros Ht. induction a as [|c a IH]; app_simpl; [reflexivity|].
  simpl. rewrite IH. destruct (a +:+ t) eqn:E; [|reflexivity].
  destruct a; app_simpl; [contradiction|discriminate].
Qed.

Lemma no_slash_ends (t : string) : no_slash t = true -> ends_with_slash t = false.
Proof.
  unfold no_slash. induction t as [|c t IH]; simpl; [reflexivity|].
  intros [Hc Ht]%andb_prop. apply negb_true_iff in Hc.
  destruct t; [assumption|]. now apply IH.
Qed.

(** The target folder is [<something>/<token>]: joining a name to it puts
    a slash in between. *)
Lemma target_folder_join_prefix (dest_folder t : string) :
  t <> "" -> no_slash t = true ->
  join_prefix (target_folder_of dest_folder t)
  = target_folder_of dest_folder t +:+ "/".
Proof.
  intros Hne Hns. unfold join_prefix, target_folder_of, path_join3.
  rewrite (path_join_no_slash _ _ Hns).
  rewrite (ends_with_slash_app _ _ Hne), (no_slash_ends _ Hns).
  destruct (String.eqb_spec (join_prefix (path_join dest_folder "hotels") +:+ t) "")
    as [E|_]; [|reflexivity].
  destruct (join_prefix _); app_simpl; [contradiction|discriminate].
Qed.

(** The token the first loop returns comes from a key of the bucket. *)
Lemma find_latest_token (bucket : list object_summary) (t : string) :
  find_latest (objects_with_prefix "hotels/" bucket) = Some t ->
  is_snapshot_token bucket t.
Proof.
  intros Ht.
  pose proof (select_latest_fold (objects_with_prefix "hotels/" bucket) None) as Hf.
  unfold find_latest in Ht. rewrite Ht in Hf.
  destruct Hf as ([Hin|Hin] & _); [discriminate|]. now apply tokens_of_spec.
Qed.

(** ** The first loop, continued *)

(** X1. What the regular expression accepts and what it returns: a key
    matches exactly when it is [hotels/] followed by one non-empty segment
    without a slash, the group is that segment, and it is the basename of
    the key. The bare prefix and every key with a further segment, such as
    the marker [hotels/<token>/done], do not match. *)
Theorem done_file_match_shape (k : string) :
  match done_file_match k with
  | Some t =>
      k = "hotels/" +:+ t /\ t <> "" /\ no_slash t = true /\ basename k = t
  | None => forall t, t <> "" -> no_slash t = true -> k <> "hotels/" +:+ t
  end
  /\ done_file_match "hotels/" = None
  /\ forall t rest, done_file_match ("hotels/" +:+ t +:+ "/" +:+ rest) = None.
Proof.
  split; [|split; [reflexivity|]].
  - destruct (done_file_match k) as [t|] eqn:E.
    + apply done_file_match_spec in E as (-> & Hne & Hns).
      repeat split; auto. now apply (basename_app "hotels" t).
    + intros t Hne Hns ->.
      assert (done_file_match ("hotels/" +:+ t) = Some t) as E'
        by now apply done_file_match_spec.
      congruence.
  - intros t rest. destruct (done_file_match _) as [t'|] eqn:E; [|reflexivity].
    apply done_file_match_spec in E as (E & _ & Hns).
    apply string_app_inv_head in E. subst t'.
    rewrite !no_slash_app in Hns. apply andb_prop in Hns as [_ Hns].
    apply andb_prop in Hns as [Hns _]. discriminate.
Qed.

(** X2. The snapshot the first loop selects depends on the objects of the
    listing only, not on their order nor on repetitions. *)
Theorem find_latest_order_free (bucket bucket' : list object_summary) :
  (forall o, In o bucket <-> In o bucket') ->
  find_latest (objects_with_prefix "hotels/" bucket)
  = find_latest (objects_with_prefix "hotels/" bucket').
Proof.
  intros Hsame.
  assert (Htok : forall t, is_snapshot_token bucket t <-> is_snapshot_token bucket' t).
  { intros t. unfold is_snapshot_token. split; intros (o & Ho & H);
      exists o; (split; [now apply Hsame|assumption]). }
  pose proof (select_latest_fold (objects_with_prefix "hotels/" bucket) None) as H1.
  pose proof (select_latest_fold (objects_with_prefix "hotels/" bucket') None) as H2.
  unfold find_latest.
  destruct (fold_left select_latest (objects_with_prefix "hotels/" bucket) None)
    as [t1|];
    destruct (fold_left select_latest (objects_with_prefix "hotels/" bucket') None)
    as [t2|].
  - destruct H1 as ([?|In1] & _ & All1); [discriminate|].
    destruct H2 as ([?|In2] & _ & All2); [discriminate|].
    rewrite Forall_forall in All1, All2. f_equal. apply String.leb_antisym.
    + apply All2, list_elem_of_In, tokens_of_spec, Htok, tokens_of_spec, In1.
    + apply All1, list_elem_of_In, tokens_of_spec, Htok, tokens_of_spec, In2.
  - destruct H1 as ([?|In1] & _); [discriminate|]. destruct H2 as (_ & Hnil).
    apply tokens_of_spec, Htok, tokens_of_spec in In1. now rewrite Hnil in In1.
  - destruct H2 as ([?|In2] & _); [discriminate|]. destruct H1 as (_ & Hnil).
    apply tokens_of_spec, Htok, tokens_of_spec in In2. now rewrite Hnil in In2.
  - reflexivity.
Qed.

Lemma find_latest_order_free_witness :
  let b1 := [stored "hotels/20230101" []; stored "hotels/20230202" []] in
  let b2 := [stored "hotels/20230202" []; stored "hotels/20230101" [];
             stored "hotels/20230202" []] in
  (forall o, In o b1 <-> In o b2)
  /\ find_latest (objects_with_prefix "hotels/" b1)
     = find_latest (objects_with_prefix "hotels/" b2).
Proof.
  intros b1 b2.
  assert (H : forall o, In o b1 <-> In o b2) by (intros o; simpl; tauto).
  split; [exact H|]. exact (find_latest_order_free b1 b2 H).
Defined.

(** X8. The second listing uses the prefix [hotels/<token>] without a
    closing slash, so the object [hotels/<token>] that made the token a
    candidate is one of its entries: its basename is the token, and its
    local path is [<target folder>/<token>]. *)
Theorem selected_key_is_listed
  (bucket : list object_summary) (dest_folder t : string) :
  find_latest (objects_with_prefix "hotels/" bucket) = Some t ->
  exists o,
    In o (listing_of bucket t)
    /\ key o = "hotels/" +:+ t
    /\ basename (key o) = t
    /\ local_path_of dest_folder t o = target_folder_of dest_folder t +:+ "/" +:+ t.
Proof.
  intros Ht. destruct (find_latest_token _ _ Ht) as (o & Ho & Hk & Hne & Hns).
  assert (Hb : basename (key o) = t).
  { rewrite Hk. now apply (basename_app "hotels" t). }
  exists o. split; [|split; [assumption|split; [assumption|]]].
  - unfold listing_of, objects_with_prefix. apply filter_In. split; [assumption|].
    rewrite Hk. pose proof (prefix_app ("hotels/" +:+ t) "") as Hp.
    now rewrite string_app_nil_r in Hp.
  - unfold local_path_of. rewrite path_join_basename, Hb.
    rewrite (target_folder_join_prefix _ _ Hne Hns). apply string_app_assoc.
Qed.

Lemma selected_key_is_listed_witness :
  find_latest (objects_with_prefix "hotels/" scenario_B) = Some "20230101"
  /\ exists o,
       In o (listing_of scenario_B "20230101")
       /\ key o = "hotels/" +:+ "20230101"
       /\ basename (key o) = "20230101"
       /\ local_path_of "/data" "20230101" o
          = target_folder_of "/data" "20230101" +:+ "/" +:+ "20230101".
Proof.
  assert (H : find_latest (objects_with_prefix "hotels/" scenario_B)
              = Some "20230101") by reflexivity.
  split; [exact H|]. exact (selected_key_is_listed scenario_B "/data" "20230101" H).
Defined.

(** ** The checksum comparison, continued *)

Lemma hex_of_byte_digits (b : byte) :
  forallb is_hex_digit (MD5.hex_of_byte b) = true.
Proof. destruct b; reflexivity. Qed.

Lemma hexlify_digits (bs : list byte) :
  forallb is_hex_digit (list_ascii_of_string (MD5.hexlify bs)) = true.
Proof.
  unfold MD5.hexlify. rewrite list_ascii_of_string_of_list_ascii.
  induction bs as [|b bs IH]; [reflexivity|].
  cbn [flat_map]. rewrite forallb_app, hex_of_byte_digits. exact IH.
Qed.

(** X3. An e-tag passes the comparison only if it is 34 characters long:
    a double quote, 32 lowercase hexadecimal digits, a double quote. The
    e-tag of a multi-part upload, which has a dash and a part count after
    the digits, is refused whatever bytes were downloaded. *)
Theorem accepted_e_tag_shape (local : list byte) (etag : string) :
  checksum_matches local etag = true ->
  String.length etag = 34%nat
  /\ (exists h,
        etag = quoted h /\ String.length h = 32%nat
        /\ forallb is_hex_digit (list_ascii_of_string h) = true)
  /\ ~ In "-"%char (list_ascii_of_string etag).
Proof.
  unfold checksum_matches. intros E%String.eqb_eq. subst etag.
  rewrite md5_of_content_spec. unfold MD5.hexdigest.
  set (d := MD5.digest (MD5.update MD5.init local)).
  assert (Hlen : String.length (MD5.hexlify d) = 32%nat).
  { rewrite hexlify_length. unfold d. now rewrite digest_length. }
  pose proof (hexlify_digits d) as Hdig.
  split; [|split].
  - unfold quoted. cbn [String.length]. rewrite string_app_length, Hlen. reflexivity.
  - now exists (MD5.hexlify d).
  - unfold quoted. cbn [list_ascii_of_string]. intros [Hq|Hin]; [discriminate|].
    revert Hdig Hin. generalize (MD5.hexlify d). intros h.
    induction h as [|c h IH]; app_simpl; cbn [list_ascii_of_string forallb].
    + intros _ [Hq|[]]. discriminate.
    + intros [Hc Hh]%andb_prop [E|Hin]; [subst c; discriminate|]. now apply IH.
Qed.

Lemma accepted_e_tag_shape_witness :
  let etag := e_tag_of_content [] in
  checksum_matches [] etag = true
  /\ String.length etag = 34%nat
  /\ (exists h,
        etag = quoted h /\ String.length h = 32%nat
        /\ forallb is_hex_digit (list_ascii_of_string h) = true)
  /\ ~ In "-"%char (list_ascii_of_string etag).
Proof.
  intros etag.
  assert (H : checksum_matches [] etag = true) by (vm_compute; reflexivity).
  split; [exact H|]. exact (accepted_e_tag_shape [] etag H).
Defined.

(** ** The trace of a run *)

Lemma step_block (tf : string) (o : object_summary) (w : world) :
  exists blk,
    log (final_world (sync_object tf o w)) = log w ++ blk
    /\ (blk = [] \/ entry_block tf o blk).
Proof.
  unfold entry_block. step_cases tf o w H.
  - exists []. rewrite app_nil_r. auto.
  - exists []. rewrite app_nil_r. auto.
  - eexists. split; [reflexivity|]. right. auto.
  - eexists. split; [reflexivity|]. right. auto.
  - eexists. split; [reflexivity|]. right. auto 6.
  - eexists. split; [reflexivity|]. right. auto 6.
Qed.

Lemma loop_trace_for_each
  (tf : string) (objs : list object_summary) (w w0 : world) (evs0 : list event) :
  log w0 = log w ++ evs0 ->
  Forall setup_event evs0 ->
  exists evs,
    log (final_world (for_each (sync_object tf) objs w0)) = log w ++ evs
    /\ loop_trace tf objs evs.
Proof.
  intros Hlog Hev.
  apply (for_each_invariant
           (fun w1 => exists evs, log w1 = log w ++ evs /\ loop_trace tf objs evs)).
  - intros o w1 Ho (evs & Hl & Htr).
    destruct (step_block tf o w1) as (blk & Hl' & [->|Hblk]).
    + exists evs. rewrite app_nil_r in Hl'. split; [congruence|assumption].
    + exists (evs ++ blk). split; [now rewrite Hl', Hl, app_assoc|].
      now apply trace_entry with o.
  - exists evs0. split; [assumption|now apply trace_setup].
Qed.

Lemma loop_trace_rename
  (tf : string) (objs : list object_summary) (evs : list event) (src dst : string) :
  loop_trace tf objs evs ->
  In (Rename src dst) evs ->
  exists o before after,
    In o objs
    /\ checksum_matches (body o) (e_tag o) = true
    /\ src = path_join tf (basename (key o)) +:+ "_tmp"
    /\ dst = path_join tf (basename (key o))
    /\ evs = before ++ [DownloadFile (key o) src; HashFile src; Rename src dst]
                    ++ after.
Proof.
  induction 1 as [evs0 Hset|evs blk o Htr IH Ho Hblk]; intros Hin.
  - rewrite Forall_forall in Hset. apply list_elem_of_In, Hset in Hin. destruct Hin.
  - apply in_app_or in Hin as [Hin|Hin].
    + destruct (IH Hin) as (o1 & before & after & H1 & H2 & H3 & H4 & ->).
      exists o1, before, (after ++ blk). repeat split; auto.
      now rewrite <- !app_assoc.
    + destruct Hblk as (_ & [->|[(-> & _)|(-> & Hsum)]]).
      * destruct Hin as [E|[]]. discriminate.
      * destruct Hin as [E|[E|[]]]; discriminate.
      * destruct Hin as [E|[E|[E|[]]]]; try discriminate. injection E as <- <-.
        exists o, evs, []. repeat split; auto.
Qed.

Lemma loop_trace_hash
  (tf : string) (objs : list object_summary) (evs : list event) (p : string) :
  loop_trace tf objs evs ->
  In (HashFile p) evs ->
  exists o before after,
    In o objs
    /\ p = path_join tf (basename (key o)) +:+ "_tmp"
    /\ evs = before ++ [DownloadFile (key o) p; HashFile p] ++ after.
Proof.
  induction 1 as [evs0 Hset|evs blk o Htr IH Ho Hblk]; intros Hin.
  - rewrite Forall_forall in Hset. apply list_elem_of_In, Hset in Hin. destruct Hin.
  - apply in_app_or in Hin as [Hin|Hin].
    + destruct (IH Hin) as (o1 & before & after & H1 & H2 & ->).
      exists o1, before, (after ++ blk). repeat split; auto.
      now rewrite <- !app_assoc.
    + destruct Hblk as (_ & [->|[(-> & _)|(-> & Hsum)]]).
      * destruct Hin as [E|[]]. discriminate.
      * destruct Hin as [E|[E|[]]]; try discriminate. injection E as <-.
        exists o, evs, []. repeat split; auto.
      * destruct Hin as [E|[E|[E|[]]]]; try discriminate. injection E as <-.
        exists o, evs, [Rename (path_join tf (basename (key o)) +:+ "_tmp")
                               (path_join tf (basename (key o)))].
        repeat split; auto.
Qed.

(** X4. In every run, with or without name clashes and however it ends,
    [os.rename] is only called right after the download and the hash of its
    source, for an entry of the listing whose downloaded bytes hash to its
    e-tag, from the temporary path of that entry to its final path; and
    [md5] is only called on the path the preceding download wrote. *)
Theorem renames_follow_verified_downloads
  (bucket : list object_summary) (dest_folder : string) (w : world) (t : string) :
  find_latest (objects_with_prefix "hotels/" bucket) = Some t ->
  exists evs,
    log (final_world (download_latest bucket dest_folder w)) = log w ++ evs
    /\ (forall src dst,
          In (Rename src dst) evs ->
          exists o before after,
            In o (listing_of bucket t)
            /\ checksum_matches (body o) (e_tag o) = true
            /\ src = tmp_path_of dest_folder t o
            /\ dst = local_path_of dest_folder t o
            /\ evs = before
                     ++ [DownloadFile (key o) src; HashFile src; Rename src dst]
                     ++ after)
    /\ (forall p,
          In (HashFile p) evs ->
          exists o before after,
            In o (listing_of bucket t)
            /\ p = tmp_path_of dest_folder t o
            /\ evs = before ++ [DownloadFile (key o) p; HashFile p] ++ after).
Proof.
  intros Ht. pose proof (download_latest_run bucket dest_folder w) as Hrun.
  rewrite Ht in Hrun.
  destruct Hrun as (w0 & evs0 & Hlog & Hev & _ & _ & Hr).
  assert (Htr : exists evs,
             log (final_world (download_latest bucket dest_folder w)) = log w ++ evs
             /\ loop_trace (target_folder_of dest_folder t) (listing_of bucket t) evs).
  { destruct Hr as [Hr|Hr]; rewrite Hr.
    - exists evs0. split; [assumption|now apply trace_setup].
    - now apply loop_trace_for_each with evs0. }
  destruct Htr as (evs & Hl & Htr). exists evs. split; [assumption|]. split.
  - intros src dst Hin. now apply (loop_trace_rename _ _ _ _ _ Htr).
  - intros p Hin. now apply (loop_trace_hash _ _ _ _ Htr).
Qed.

Lemma renames_follow_verified_downloads_witness :
  let w' := final_world (download_latest scenario_B "/data" empty_dest) in
  find_latest (objects_with_prefix "hotels/" scenario_B) = Some "20230101"
  /\ exists evs,
       log w' = log empty_dest ++ evs
       /\ (forall src dst,
             In (Rename src dst) evs ->
             exists o before after,
               In o (listing_of scenario_B "20230101")
               /\ checksum_matches (body o) (e_tag o) = true
               /\ src = tmp_path_of "/data" "20230101" o
               /\ dst = local_path_of "/data" "20230101" o
               /\ evs = before
                        ++ [DownloadFile (key o) src; HashFile src; Rename src dst]
                        ++ after)
       /\ (forall p,
             In (HashFile p) evs ->
             exists o before after,
               In o (listing_of scenario_B "20230101")
               /\ p = tmp_path_of "/data" "20230101" o
               /\ evs = before ++ [DownloadFile (key o) p; HashFile p] ++ after).
Proof.
  intros w'.
  assert (H : find_latest (objects_with_prefix "hotels/" scenario_B)
              = Some "20230101") by reflexivity.
  split; [exact H|].
  exact (renames_follow_verified_downloads scenario_B "/data" empty_dest
           "20230101" H).
Defined.

(** ** Where a run writes *)

Lemma local_path_rsplit
  (dest_folder t : string) (o : object_summary) :
  t <> "" -> no_slash t = true ->
  rsplit_slash (local_path_of dest_folder t o)
  = (Some (target_folder_of dest_folder t), basename (key o)).
Proof.
  intros Hne Hns. unfold local_path_of.
  rewrite path_join_basename, (target_folder_join_prefix _ _ Hne Hns).
  rewrite string_app_assoc. apply rsplit_app, basename_no_slash.
Qed.

Lemma tmp_path_rsplit
  (dest_folder t : string) (o : object_summary) :
  t <> "" -> no_slash t = true ->
  rsplit_slash (tmp_path_of dest_folder t o)
  = (Some (target_folder_of dest_folder t), basename (key o) +:+ "_tmp").
Proof.
  intros Hne Hns. unfold tmp_path_of, local_path_of.
  rewrite path_join_basename, (target_folder_join_prefix _ _ Hne Hns).
  rewrite !string_app_assoc. apply rsplit_app.
  rewrite no_slash_app, basename_no_slash. reflexivity.
Qed.

(** X5. A run writes only directly inside the target folder
    [<dest>/hotels/<token>]: every download and every rename names a direct
    child of it, whatever the keys of the bucket are; a node whose parent is
    not the target folder is still there after the run, unchanged, and no
    regular file appears anywhere else. *)
Theorem run_confined_to_target_folder
  (bucket : list object_summary) (dest_folder : string) (w : world) (t : string) :
  find_latest (objects_with_prefix "hotels/" bucket) = Some t ->
  exists evs,
    log (final_world (download_latest bucket dest_folder w)) = log w ++ evs
    /\ (forall k p,
          In (DownloadFile k p) evs ->
          rsplit_slash p
          = (Some (target_folder_of dest_folder t), basename k +:+ "_tmp"))
    /\ (forall src dst,
          In (Rename src dst) evs ->
          exists b, no_slash b = true
                    /\ rsplit_slash dst = (Some (target_folder_of dest_folder t), b)
                    /\ src = dst +:+ "_tmp")
    /\ (forall q,
          fst (rsplit_slash q) <> Some (target_folder_of dest_folder t) ->
          (forall n, files w !! q = Some n ->
                     files (final_world (download_latest bucket dest_folder w)) !! q
                     = Some n)
          /\ (forall c,
                files (final_world (download_latest bucket dest_folder w)) !! q
                = Some (File c) ->
                files w !! q = Some (File c))).
Proof.
  intros Ht. destruct (find_latest_token _ _ Ht) as (_ & _ & _ & Hne & Hns).
  destruct (download_latest_inv bucket dest_folder t w Ht) as (evs & Hinv).
  exists evs. split; [exact (inv_log _ _ _ _ _ _ Hinv)|].
  assert (Hnot : forall q,
             fst (rsplit_slash q) <> Some (target_folder_of dest_folder t) ->
             ~ is_tmp_path bucket dest_folder t q).
  { intros q Hq (o1 & _ & _ & ->). apply Hq.
    now rewrite (tmp_path_rsplit _ _ _ Hne Hns). }
  split; [|split].
  - intros k p Hin.
    destruct (run_inv_event _ _ _ _ _ _ _ Hinv Hin)
      as [[]|(o1 & _ & _ & [E|[E|E]] & _)]; try discriminate.
    injection E as -> ->. apply (tmp_path_rsplit dest_folder t o1 Hne Hns).
  - intros src dst Hin.
    destruct (run_inv_event _ _ _ _ _ _ _ Hinv Hin)
      as [[]|(o1 & _ & _ & [E|[E|E]] & _)]; try discriminate.
    injection E as -> ->. exists (basename (key o1)).
    split; [apply basename_no_slash|]. split; [|reflexivity].
    apply (local_path_rsplit dest_folder t o1 Hne Hns).
  - intros q Hq. split.
    + intros n Hn. apply (inv_frame _ _ _ _ _ _ Hinv _ _ Hn). now apply Hnot.
    + intros c Hc.
      destruct (inv_origin _ _ _ _ _ _ Hinv _ _ Hc) as [H|[H|H]]; [assumption| |].
      * now apply Hnot in H.
      * destruct H as (o1 & _ & _ & _ & -> & _). exfalso. apply Hq.
        now rewrite (local_path_rsplit _ _ _ Hne Hns).
Qed.

Lemma run_confined_to_target_folder_witness :
  let w' := final_world (download_latest scenario_B "/data" empty_dest) in
  find_latest (objects_with_prefix "hotels/" scenario_B) = Some "20230101"
  /\ exists evs,
       log w' = log empty_dest ++ evs
       /\ (forall k p,
             In (DownloadFile k p) evs ->
             rsplit_slash p
             = (Some (target_folder_of "/data" "20230101"), basename k +:+ "_tmp"))
       /\ (forall src dst,
             In (Rename src dst) evs ->
             exists b, no_slash b = true
                       /\ rsplit_slash dst
                          = (Some (target_folder_of "/data" "20230101"), b)
                       /\ src = dst +:+ "_tmp")
       /\ (forall q,
             fst (rsplit_slash q) <> Some (target_folder_of "/data" "20230101") ->
             (forall n, files empty_dest !! q = Some n -> files w' !! q = Some n)
             /\ (forall c, files w' !! q = Some (File c) ->
                           files empty_dest !! q = Some (File c))).
Proof.
  intros w'.
  assert (H : find_latest (objects_with_prefix "hotels/" scenario_B)
              = Some "20230101") by reflexivity.
  split; [exact H|].
  exact (run_confined_to_target_folder scenario_B "/data" empty_dest "20230101" H).
Defined.

(** ** Runs that return normally *)

Lemma path_prefixes_from_self (acc s : string) :
  In (acc +:+ s) (path_prefixes_from acc s).
Proof.
  revert acc. induction s as [|c s IH]; intros acc; simpl.
  - left. apply eq_sym, string_app_nil_r.
  - assert (E : acc +:+ String c s = (acc +:+ String c "") +:+ s)
      by now rewrite string_app_assoc.
    destruct (Ascii.eqb_spec c slash) as [->|Hc].
    + apply in_or_app. right. rewrite E. apply IH.
    + rewrite E. apply IH.
Qed.

Lemma mkdirs_exists (ps : list string) (fs fs' : filesystem) (p : string) :
  mkdirs ps fs = Some fs' -> In p ps -> path_exists fs' p = true.
Proof.
  revert fs. induction ps as [|q ps IH]; intros fs Hmk Hin; [destruct Hin|].
  simpl in Hmk. destruct Hin as [->|Hin].
  - assert (Hkeep : forall fs1, path_exists fs1 p = true ->
                      mkdirs ps fs1 = Some fs' -> path_exists fs' p = true).
    { intros fs1 Hex Hmk1. revert Hex. apply path_exists_mono.
      - intros d. exact (mkdirs_keeps _ _ _ d Dir Hmk1).
      - intros n Hn. exists n. exact (mkdirs_keeps _ _ _ p n Hmk1 Hn). }
    destruct (resolve fs p) as [[c|]|] eqn:Er; [discriminate| |].
    + apply (Hkeep fs); [|assumption]. unfold path_exists. now rewrite Er.
    + apply (Hkeep (<[p := Dir]> fs)); [|assumption].
      unfold path_exists. now rewrite (resolve_lookup _ _ Dir (lookup_insert_eq _ _ _)).
  - destruct (resolve fs q) as [[c|]|]; [discriminate|eauto|eauto].
Qed.

Lemma target_not_tmp (tf k : string) :
  tf <> path_join tf (basename k) +:+ "_tmp".
Proof.
  rewrite path_join_basename. unfold join_prefix.
  destruct (String.eqb tf "" || ends_with_slash tf); rewrite !string_app_assoc;
    intros E; symmetry in E; revert E; apply string_app_neq_self.
  - destruct (basename k); app_simpl; discriminate.
  - app_simpl. discriminate.
Qed.

Lemma download_latest_unfold
  (bucket : list object_summary) (dest_folder : string) (w : world) :
  download_latest bucket dest_folder w =
  match find_latest (objects_with_prefix "hotels/" bucket) with
  | None => Raise (AssertionError no_dump_msg)
              {| files := files w; log := log w ++ [ListObjects "hotels/"] |}
  | Some t =>
      match (if path_exists (files w) (target_folder_of dest_folder t)
             then ret tt else os_makedirs (target_folder_of dest_folder t))
              {| files := files w; log := log w ++ [ListObjects "hotels/"] |}
      with
      | Ok _ w1 =>
          for_each (sync_object (target_folder_of dest_folder t))
            (listing_of bucket t)
            {| files := files w1;
               log := log w1 ++ [ListObjects ("hotels/" +:+ t)] |}
      | Raise e w1 => Raise e w1
      end
  end.
Proof.
  unfold download_latest, list_objects, bind, emit, ret, raise,
    os_path_exists, listing_of.
  destruct (find_latest _); reflexivity.
Qed.

(** A run that returns normally has selected a snapshot and has run the
    loop to its end, from a world in which the target folder exists. *)
Lemma download_latest_ok
  (bucket : list object_summary) (dest_folder : string) (w w' : world) :
  download_latest bucket dest_folder w = Ok tt w' ->
  exists t w0 evs0,
    find_latest (objects_with_prefix "hotels/" bucket) = Some t
    /\ path_exists (files w0) (target_folder_of dest_folder t) = true
    /\ log w0 = log w ++ evs0
    /\ Forall setup_event evs0
    /\ for_each (sync_object (target_folder_of dest_folder t))
                (listing_of bucket t) w0 = Ok tt w'.
Proof.
  rewrite download_latest_unfold.
  destruct (find_latest _) as [t|]; [|discriminate].
  destruct (path_exists (files w) (target_folder_of dest_folder t)) eqn:Hex.
  - unfold ret. cbn [files log]. intros H.
    exists t,
      {| files := files w;
         log := (log w ++ [ListObjects "hotels/"])
                ++ [ListObjects ("hotels/" +:+ t)] |},
      [ListObjects "hotels/"; ListObjects ("hotels/" +:+ t)].
    cbn [files log]. split; [reflexivity|]. split; [exact Hex|].
    split; [now rewrite <- app_assoc|]. split; [repeat constructor|exact H].
  - unfold os_makedirs. cbn [files log].
    destruct (mkdirs _ (files w)) as [fs'|] eqn:Emk; [|discriminate].
    cbn [files log]. intros H.
    exists t,
      {| files := fs';
         log := ((log w ++ [ListObjects "hotels/"])
                 ++ [Makedirs (target_folder_of dest_folder t)])
                ++ [ListObjects ("hotels/" +:+ t)] |},
      [ListObjects "hotels/"; Makedirs (target_folder_of dest_folder t);
       ListObjects ("hotels/" +:+ t)].
    cbn [files log]. split; [reflexivity|]. split.
    { apply (mkdirs_exists _ _ _ _ Emk). apply (path_prefixes_from_self ""). }
    split; [now rewrite <- !app_assoc|]. split; [repeat constructor|exact H].
Qed.

Lemma for_each_ok_cons {A} (f : A -> M unit) (x : A) (l : list A) (w w' : world) :
  for_each f (x :: l) w = Ok tt w' ->
  exists w1, f x w = Ok tt w1 /\ for_each f l w1 = Ok tt w'.
Proof.
  simpl. unfold bind. destruct (f x w) as [[] w1|e w1]; [eauto|discriminate].
Qed.

Lemma loop_exists (tf : string) (l : list object_summary) (w : world) (p : string) :
  path_exists (files w) p = true ->
  (forall o, In o l -> basename (key o) <> "done" ->
             p <> path_join tf (basename (key o)) +:+ "_tmp") ->
  path_exists (files (final_world (for_each (sync_object tf) l w))) p = true.
Proof.
  intros Hex Hne.
  apply (for_each_invariant (fun w1 => path_exists (files w1) p = true));
    [|assumption].
  intros o w1 Ho H1. apply step_exists; auto.
Qed.

Lemma step_ok_exists (tf : string) (o : object_summary) (w w1 : world) :
  sync_object tf o w = Ok tt w1 ->
  basename (key o) <> "done" ->
  path_exists (files w1) (path_join tf (basename (key o))) = true.
Proof.
  intros Hok Hd. pose proof (sync_object_outcome tf o w) as Hout.
  rewrite Hok in Hout.
  inversion Hout as [Hm|Hm Hex| | | |Hm Habs Hdir Hsum]; subst;
    [contradiction|assumption|].
  cbn [files]. unfold path_exists.
  now rewrite (resolve_lookup _ _ (File (body o)) (lookup_insert_eq _ _ _)).
Qed.

(** No entry of [l] that is not the marker has as temporary path the final
    path of an entry of [l]. *)
Lemma tmp_clash_free_paths (tf : string) (l : list object_summary)
  (o1 o : object_summary) :
  tmp_clash_free l = true -> In o1 l -> In o l ->
  basename (key o1) <> "done" ->
  path_join tf (basename (key o)) <> path_join tf (basename (key o1)) +:+ "_tmp".
Proof.
  intros Hfree H1 H Hd E. symmetry in E. apply tmp_path_is_local_path in E.
  unfold tmp_clash_free, tmp_clash_free_for in Hfree.
  rewrite forallb_forall in Hfree. specialize (Hfree o H).
  rewrite forallb_forall in Hfree. specialize (Hfree o1 H1).
  unfold tmp_clash in Hfree. apply String.eqb_neq in Hd.
  rewrite Hd, E, String.eqb_refl in Hfree. discriminate.
Qed.

Lemma loop_ok_complete (tf : string) (all l : list object_summary) (w w' : world) :
  tmp_clash_free all = true ->
  (forall o, In o l -> In o all) ->
  for_each (sync_object tf) l w = Ok tt w' ->
  forall o, In o l -> basename (key o) <> "done" ->
            path_exists (files w') (path_join tf (basename (key o))) = true.
Proof.
  intros Hfree. revert w. induction l as [|x l IH]; intros w Hsub Hok o Ho Hd;
    [destruct Ho|].
  apply for_each_ok_cons in Hok as (w1 & Hx & Hl).
  destruct Ho as [->|Ho].
  - pose proof (loop_exists tf l w1 _ (step_ok_exists _ _ _ _ Hx Hd)) as Hkeep.
    rewrite Hl in Hkeep. apply Hkeep. intros o1 Ho1 Hd1.
    apply (tmp_clash_free_paths tf all o1 o Hfree); auto.
    + apply Hsub. now right.
    + apply Hsub. now left.
  - apply (IH w1); auto. intros o1 Ho1. apply Hsub. now right.
Qed.

Lemma successful_run_state
  (bucket : list object_summary) (dest_folder : string) (w w' : world) (t : string) :
  download_latest bucket dest_folder w = Ok tt w' ->
  find_latest (objects_with_prefix "hotels/" bucket) = Some t ->
  tmp_clash_free (listing_of bucket t) = true ->
  path_exists (files w') (target_folder_of dest_folder t) = true
  /\ forall o, In o (listing_of bucket t) -> basename (key o) <> "done" ->
               path_exists (files w') (local_path_of dest_folder t o) = true.
Proof.
  intros Hok Ht Hfree.
  destruct (download_latest_ok _ _ _ _ Hok)
    as (t' & w0 & evs0 & Ht' & Htf & _ & _ & Hloop).
  assert (t' = t) by congruence. subst t'. split.
  - pose proof (loop_exists (target_folder_of dest_folder t) (listing_of bucket t)
                  w0 _ Htf) as Hkeep.
    rewrite Hloop in Hkeep. apply Hkeep. intros o _ _. apply target_not_tmp.
  - intros o Ho Hd. unfold local_path_of.
    now apply (loop_ok_complete _ (listing_of bucket t) (listing_of bucket t) w0 w').
Qed.


(** X7. Running again after a run that returned normally, over the same
    bucket, only lists: no directory is created, nothing is downloaded,
    hashed or renamed, and the files are the same. The same proviso on
    temporary names applies. *)
Theorem rerun_after_success_only_lists
  (bucket : list object_summary) (dest_folder : string) (w w' : world) (t : string) :
  download_latest bucket dest_folder w = Ok tt w' ->
  find_latest (objects_with_prefix "hotels/" bucket) = Some t ->
  tmp_clash_free (listing_of bucket t) = true ->
  download_latest bucket dest_folder w'
  = Ok tt {| files := files w';
             log := log w' ++ [ListObjects "hotels/";
                               ListObjects ("hotels/" +:+ t)] |}.
Proof.
  intros Hok Ht Hfree.
  destruct (successful_run_state _ _ _ _ _ Hok Ht Hfree) as [Htf Hall].
  now apply complete_rerun_is_noop.
Qed.

Lemma for_each_ok_invariant {A} (Inv : world -> Prop) (f : A -> M unit) (l : list A)
  (w w' : world) :
  (forall x w1 w2, In x l -> Inv w1 -> f x w1 = Ok tt w2 -> Inv w2) ->
  Inv w -> for_each f l w = Ok tt w' -> Inv w'.
Proof.
  revert w. induction l as [|x l IH]; intros w Hstep Hw Hok.
  - simpl in Hok. unfold ret in Hok. now injection Hok as <-.
  - apply for_each_ok_cons in Hok as (w1 & Hx & Hl).
    apply (IH w1); auto.
    + intros y w2 w3 Hy. apply Hstep. now right.
    + apply (Hstep x w w1); auto. now left.
Qed.

(** What an iteration that returns normally has done: nothing, or the
    download, the hash and the rename of its entry, after which the final
    path holds the file and the temporary path holds nothing. *)
Lemma step_ok_cases (tf : string) (o : object_summary) (w w1 : world) :
  sync_object tf o w = Ok tt w1 ->
  w1 = w
  \/ (basename (key o) <> "done"
      /\ path_exists (files w) (path_join tf (basename (key o))) = false
      /\ files w1 = <[path_join tf (basename (key o)) := File (body o)]>
                      (delete (path_join tf (basename (key o)) +:+ "_tmp")
                         (<[path_join tf (basename (key o)) +:+ "_tmp"
                            := File (body o)]> (files w)))
      /\ log w1 = log w
                  ++ [DownloadFile (key o) (path_join tf (basename (key o)) +:+ "_tmp");
                      HashFile (path_join tf (basename (key o)) +:+ "_tmp");
                      Rename (path_join tf (basename (key o)) +:+ "_tmp")
                             (path_join tf (basename (key o)))]).
Proof.
  intros Hok. pose proof (sync_object_outcome tf o w) as Hout.
  rewrite Hok in Hout.
  inversion Hout as [Hm|Hm Hex| | | |Hm Habs Hdir Hsum]; subst;
    cbn [files log]; auto 8.
Qed.

Lemma loop_ok_renamed (tf : string) (all l : list object_summary) (w w' : world) :
  tmp_clash_free all = true ->
  (forall o, In o l -> In o all) ->
  for_each (sync_object tf) l w = Ok tt w' ->
  exists evs,
    log w' = log w ++ evs
    /\ forall src dst,
         In (Rename src dst) evs ->
         files w' !! src = None /\ path_exists (files w') dst = true.
Proof.
  intros Hfree. revert w. induction l as [|x l IH]; intros w Hsub Hok.
  - simpl in Hok. unfold ret in Hok. injection Hok as <-. exists [].
    rewrite app_nil_r. split; [reflexivity|]. intros ? ? [].
  - apply for_each_ok_cons in Hok as (w1 & Hx & Hl).
    destruct (IH w1) as (evs & Hlog & Hren); [|assumption|].
    { intros o Ho. apply Hsub. now right. }
    destruct (step_ok_cases _ _ _ _ Hx) as [->|(Hd & Habs & Hfiles & Hlogx)].
    + exists evs. auto.
    + eexists. split; [rewrite Hlog, Hlogx, <- app_assoc; reflexivity|].
      intros src dst Hin. apply in_app_or in Hin as [Hin|Hin]; [|auto].
      destruct Hin as [E|[E|[E|[]]]]; try discriminate. injection E as <- <-.
      set (lp := path_join tf (basename (key x))) in *.
      apply (for_each_ok_invariant
               (fun w2 => files w2 !! (lp +:+ "_tmp") = None
                          /\ path_exists (files w2) lp = true)
               (sync_object tf) l w1 w'); [| |assumption].
      * intros o w2 w3 Ho [Hnone Hex] Ho3. split.
        -- destruct (step_ok_cases _ _ _ _ Ho3) as [->|(Hdo & Habso & Hf & _)];
             [assumption|]. rewrite Hf.
           assert (path_join tf (basename (key o)) <> lp +:+ "_tmp") as Hne.
           { apply (tmp_clash_free_paths tf all x o Hfree); auto.
             - apply Hsub. now left.
             - apply Hsub. now right. }
           rewrite lookup_insert_ne by assumption.
           destruct (decide (path_join tf (basename (key o)) +:+ "_tmp"
                             = lp +:+ "_tmp")) as [->|Hne2].
           ++ apply lookup_delete_eq.
           ++ rewrite lookup_delete_ne by assumption.
              now rewrite lookup_insert_ne by assumption.
        -- pose proof (step_exists tf o w2 lp Hex) as Hkeep.
           rewrite Ho3 in Hkeep. apply Hkeep. intros Hdo.
           apply (tmp_clash_free_paths tf all o x Hfree); auto.
           ++ apply Hsub. now right.
           ++ apply Hsub. now left.
      * rewrite Hfiles. split.
        -- rewrite lookup_insert_ne by apply not_eq_sym, tmp_path_neq.
           apply lookup_delete_eq.
        -- unfold path_exists.
           now rewrite (resolve_lookup _ _ (File (body x)) (lookup_insert_eq _ _ _)).
Qed.

(** X9. A run that returns normally leaves none of its temporary files
    behind: for every rename it made, the temporary path holds nothing at the
    end and the final path exists. The same proviso on temporary names
    applies. *)
Theorem successful_run_leaves_no_tmp
  (bucket : list object_summary) (dest_folder : string) (w w' : world) (t : string) :
  download_latest bucket dest_folder w = Ok tt w' ->
  find_latest (objects_with_prefix "hotels/" bucket) = Some t ->
  tmp_clash_free (listing_of bucket t) = true ->
  exists evs,
    log w' = log w ++ evs
    /\ forall src dst,
         In (Rename src dst) evs ->
         files w' !! src = None /\ path_exists (files w') dst = true.
Proof.
  intros Hok Ht Hfree.
  destruct (download_latest_ok _ _ _ _ Hok)
    as (t' & w0 & evs0 & Ht' & _ & Hlog0 & Hset & Hloop).
  assert (t' = t) by congruence. subst t'.
  destruct (loop_ok_renamed _ (listing_of bucket t) _ _ _ Hfree (fun o H => H) Hloop)
    as (evs & Hlog & Hren).
  exists (evs0 ++ evs). split; [now rewrite Hlog, Hlog0, app_assoc|].
  intros src dst Hin. apply in_app_or in Hin as [Hin|Hin]; [|auto].
  rewrite Forall_forall in Hset. apply list_elem_of_In, Hset in Hin. destruct Hin.
Qed.

Lemma prefix_inv (p s : string) :
  String.prefix p s = true -> exists rest, s = p +:+ rest.
Proof.
  revert s. induction p as [|a p IH]; intros s; [now exists s|].
  destruct s as [|b s]; simpl; [discriminate|].
  destruct (ascii_dec a b) as [->|]; [|discriminate].
  intros [rest ->]%IH. now exists rest.
Qed.

(** X10. In every run, whatever is downloaded is an object of the bucket
    whose key extends [hotels/<token>] (with or without a slash after the
    token) and whose basename is not [done], and it is written to
    [<target folder>/<basename>_tmp]. *)
Theorem downloads_come_from_listing
  (bucket : list object_summary) (dest_folder : string) (w : world) (t : string) :
  find_latest (objects_with_prefix "hotels/" bucket) = Some t ->
  exists evs,
    log (final_world (download_latest bucket dest_folder w)) = log w ++ evs
    /\ forall k p,
         In (DownloadFile k p) evs ->
         basename k <> "done"
         /\ (exists o, In o bucket /\ key o = k)
         /\ (exists rest, k = "hotels/" +:+ t +:+ rest)
         /\ p = target_folder_of dest_folder t +:+ "/" +:+ basename k +:+ "_tmp".
Proof.
  intros Ht. destruct (find_latest_token _ _ Ht) as (_ & _ & _ & Hne & Hns).
  destruct (download_latest_inv bucket dest_folder t w Ht) as (evs & Hinv).
  exists evs. split; [exact (inv_log _ _ _ _ _ _ Hinv)|].
  intros k p Hin.
  destruct (run_inv_event _ _ _ _ _ _ _ Hinv Hin)
    as [[]|(o1 & Ho1 & Hd & [E|[E|E]] & _)]; try discriminate.
  injection E as -> ->.
  unfold listing_of, objects_with_prefix in Ho1. apply filter_In in Ho1 as [Hb Hp].
  split; [assumption|]. split; [now exists o1|]. split.
  - apply prefix_inv in Hp as [rest Hk]. exists rest.
    now rewrite Hk, string_app_assoc.
  - rewrite path_join_basename, (target_folder_join_prefix _ _ Hne Hns).
    now rewrite !string_app_assoc.
Qed.

(** ** The extras on scenario B *)

Lemma scenario_B_run :
  download_latest scenario_B "/data" empty_dest = Ok tt scenario_B_end.
Proof. vm_compute. reflexivity. Qed.

Lemma scenario_B_latest :
  find_latest (objects_with_prefix "hotels/" scenario_B) = Some "20230101".
Proof. reflexivity. Qed.

Lemma scenario_B_clash_free :
  tmp_clash_free (listing_of scenario_B "20230101") = true.
Proof. reflexivity. Qed.


Lemma rerun_after_success_only_lists_witness :
  download_latest scenario_B "/data" empty_dest = Ok tt scenario_B_end
  /\ find_latest (objects_with_prefix "hotels/" scenario_B) = Some "20230101"
  /\ tmp_clash_free (listing_of scenario_B "20230101") = true
  /\ download_latest scenario_B "/data" scenario_B_end
     = Ok tt {| files := files scenario_B_end;
                log := log scenario_B_end
                       ++ [ListObjects "hotels/";
                           ListObjects ("hotels/" +:+ "20230101")] |}.
Proof.
  split; [exact scenario_B_run|]. split; [exact scenario_B_latest|].
  split; [exact scenario_B_clash_free|].
  exact (rerun_after_success_only_lists scenario_B "/data" empty_dest
           scenario_B_end "20230101" scenario_B_run scenario_B_latest
           scenario_B_clash_free).
Defined.

Lemma successful_run_leaves_no_tmp_witness :
  download_latest scenario_B "/data" empty_dest = Ok tt scenario_B_end
  /\ find_latest (objects_with_prefix "hotels/" scenario_B) = Some "20230101"
  /\ tmp_clash_free (listing_of scenario_B "20230101") = true
  /\ exists evs,
       log scenario_B_end = log empty_dest ++ evs
       /\ forall src dst,
            In (Rename src dst) evs ->
            files scenario_B_end !! src = None
            /\ path_exists (files scenario_B_end) dst = true.
Proof.
  split; [exact scenario_B_run|]. split; [exact scenario_B_latest|].
  split; [exact scenario_B_clash_free|].
  exact (successful_run_leaves_no_tmp scenario_B "/data" empty_dest
           scenario_B_end "20230101" scenario_B_run scenario_B_latest
           scenario_B_clash_free).
Defined.

Lemma downloads_come_from_listing_witness :
  find_latest (objects_with_prefix "hotels/" scenario_B) = Some "20230101"
  /\ exists evs,
       log (final_world (download_latest scenario_B "/data" empty_dest))
       = log empty_dest ++ evs
       /\ forall k p,
            In (DownloadFile k p) evs ->
            basename k <> "done"
            /\ (exists o, In o scenario_B /\ key o = k)
            /\ (exists rest, k = "hotels/" +:+ "20230101" +:+ rest)
            /\ p = target_folder_of "/data" "20230101" +:+ "/" +:+ basename k
                   +:+ "_tmp".
Proof.
  split; [exact scenario_B_latest|].
  exact (downloads_come_from_listing scenario_B "/data" empty_dest "20230101"
           scenario_B_latest).
Defined.
